(** * Sitemap generation from a Remix route tree

    A shallow embedding of [app/utils/sitemap.server.ts]: the default
    path resolver, the per-route entry collector, schema validation, the
    de-duplication loop and the XML serialiser, followed by the properties
    established about them. *)

From Stdlib Require Import String Ascii List ZArith Bool Lia Arith.
From Stdlib Require Import DecimalString Permutation.
Import ListNotations.

Open Scope list_scope.
Open Scope string_scope.

Set Implicit Arguments.
Set Warnings "-register-all".
Set Warnings "-notation-overridden".

(* ================================================================== *)
(** ** JavaScript string primitives used by the module *)
(* ================================================================== *)

Module JsString.

(** [s.endsWith(suffix)]: some tail of [s] is [suffix]. *)
Fixpoint endsWith (suffix s : string) : bool :=
  (s =? suffix) ||
  match s with
  | EmptyString => false
  | String _ rest => endsWith suffix rest
  end.

(** [s.slice(0, -1)]: [s] without its last character. *)
Fixpoint slice_0_m1 (s : string) : string :=
  match s with
  | EmptyString => EmptyString
  | String _ EmptyString => EmptyString
  | String c rest => String c (slice_0_m1 rest)
  end.

(** [s.includes(needle)]: [needle] is a prefix of some tail of [s]. *)
Fixpoint includes (needle s : string) : bool :=
  String.prefix needle s ||
  match s with
  | EmptyString => false
  | String _ rest => includes needle rest
  end.

(** A string is truthy when it is not empty. *)
Definition truthy (s : string) : bool :=
  match s with EmptyString => false | _ => true end.

(** White space removed by [trim], restricted to the ASCII range. *)
Definition isWhiteSpace (c : ascii) : bool :=
  match nat_of_ascii c with
  | 9 | 10 | 11 | 12 | 13 | 32 => true
  | _ => false
  end.

Fixpoint trimStart (s : string) : string :=
  match s with
  | EmptyString => EmptyString
  | String c rest => if isWhiteSpace c then trimStart rest else s
  end.

Fixpoint trimEnd (s : string) : string :=
  match s with
  | EmptyString => EmptyString
  | String c rest =>
      match trimEnd rest with
      | EmptyString => if isWhiteSpace c then EmptyString else String c EmptyString
      | rest' => String c rest'
      end
  end.

(** [s.trim()]. *)
Definition trim (s : string) : string := trimEnd (trimStart s).

(** [parts.join('')]. *)
Definition join_empty (parts : list string) : string := String.concat "" parts.

Definition nl : string := String (ascii_of_nat 10) EmptyString.
Definition tab : string := String (ascii_of_nat 9) EmptyString.

End JsString.

Import JsString.

(** [removeTrailingSlash] of the source. *)
Definition removeTrailingSlash (s : string) : string :=
  if endsWith "/" s then slice_0_m1 s else s.

(* ================================================================== *)
(** ** Completions: a call returns, throws, or runs out of fuel *)
(* ================================================================== *)

Inductive completion (A : Type) : Type :=
| Normal (a : A)
| Thrown
| OutOfFuel.

Arguments Normal {A} a.
Arguments Thrown {A}.
Arguments OutOfFuel {A}.

(* ================================================================== *)
(** ** JavaScript values handed around by entry functions *)
(* ================================================================== *)

(** Numbers are kept as a count of tenths ([JNum 8] is [0.8], [JNum 15]
    is [1.5]): the module only compares numbers with the literals
    [0.0] ... [1.0] and prints them.  A [Date] carries its time value in
    milliseconds, or [None] for an invalid date. *)
Inductive jsval : Type :=
| JUndefined
| JNull
| JBool (b : bool)
| JNum (tenths : Z)
| JStr (s : string)
| JDate (time : option Z)
| JArr (elems : list jsval)
| JObj (props : list (string * jsval)).

(** Own-property lookup in a property list (first binding of the key). *)
Fixpoint assoc {A : Type} (k : string) (l : list (string * A)) : option A :=
  match l with
  | [] => None
  | (k', v) :: rest => if (k' =? k)%string then Some v else assoc k rest
  end.

(* ================================================================== *)
(** ** Sitemap entries: the type inferred from [SitemapEntrySchema] *)
(* ================================================================== *)

Inductive ChangeFreq : Type :=
| always | hourly | daily | weekly | monthly | yearly | never.

Definition changeFreqName (c : ChangeFreq) : string :=
  match c with
  | always => "always" | hourly => "hourly" | daily => "daily"
  | weekly => "weekly" | monthly => "monthly" | yearly => "yearly"
  | never => "never"
  end.

Definition allChangeFreqs : list ChangeFreq :=
  [always; hourly; daily; weekly; monthly; yearly; never].

(** The eleven literals [0.0], [0.1], ..., [1.0]. *)
Inductive Priority : Type :=
| P0_0 | P0_1 | P0_2 | P0_3 | P0_4 | P0_5 | P0_6 | P0_7 | P0_8 | P0_9 | P1_0.

Definition priorityTenths (p : Priority) : Z :=
  match p with
  | P0_0 => 0 | P0_1 => 1 | P0_2 => 2 | P0_3 => 3 | P0_4 => 4 | P0_5 => 5
  | P0_6 => 6 | P0_7 => 7 | P0_8 => 8 | P0_9 => 9 | P1_0 => 10
  end%Z.

Definition allPriorities : list Priority :=
  [P0_0; P0_1; P0_2; P0_3; P0_4; P0_5; P0_6; P0_7; P0_8; P0_9; P1_0].

(** An optional property [k?: T] of an object: the key is not there, the
    key is there and holds [undefined], or the key holds a value. *)
Inductive optional (A : Type) : Type :=
| KeyAbsent
| KeyUndefined
| KeyValue (a : A).

Arguments KeyAbsent {A}.
Arguments KeyUndefined {A}.
Arguments KeyValue {A} a.

(** The value read from an optional property ([None] is [undefined]). *)
Definition optValue {A : Type} (o : optional A) : option A :=
  match o with KeyValue a => Some a | _ => None end.

(** [lastmod] is the time value of a valid [Date]. *)
Record SitemapEntry : Type := mkSitemapEntry {
  route : string;
  lastmod : optional Z;
  changefreq : optional ChangeFreq;
  priority : optional Priority
}.

Definition optProp {A : Type} (k : string) (inj : A -> jsval) (o : optional A)
  : list (string * jsval) :=
  match o with
  | KeyAbsent => []
  | KeyUndefined => [(k, JUndefined)]
  | KeyValue a => [(k, inj a)]
  end.

(** The run-time object behind a typed entry, keys in schema order. *)
Definition entryProps (e : SitemapEntry) : list (string * jsval) :=
  (("route", JStr (route e))
    :: optProp "lastmod" (fun t => JDate (Some t)) (lastmod e)
    ++ optProp "changefreq" (fun c => JStr (changeFreqName c)) (changefreq e)
    ++ optProp "priority" (fun p => JNum (priorityTenths p)) (priority e))%list.

Definition entryObject (e : SitemapEntry) : jsval := JObj (entryProps e).

(* ================================================================== *)
(** ** The framework context *)
(* ================================================================== *)

(** A route of [remixContext.manifest.routes]. *)
Record ManifestRoute : Type := mkManifestRoute {
  parentId : option string;
  path : option string;
  index : option bool
}.

(** An entry function.  The request and the context are those of the
    generation in progress, so a function is given by what it returns
    for the route identifier it is called with. *)
Definition GetSitemapEntriesFunction : Type := string -> completion jsval.

(** The [getSitemapEntries] property of a handle object. *)
Inductive GetSitemapEntriesProp : Type :=
| PropUndefined
| PropNull
| PropFunction (f : GetSitemapEntriesFunction)
| PropOther.

(** [mod.handle]: not there, an object, or a value that is not an object
    (and has no [getSitemapEntries] of its own). *)
Inductive HandleValue : Type :=
| HandleUndefined
| HandleObject (getSitemapEntries : GetSitemapEntriesProp)
| HandleOther.

(** A route module; [hasDefault] is ['default' in mod]. *)
Record RouteModule : Type := mkRouteModule {
  hasDefault : bool;
  handle : HandleValue
}.

(** Both tables are JavaScript objects keyed by route identifier; they
    are kept as association lists in property order. *)
Record RemixContext : Type := mkRemixContext {
  manifestRoutes : list (string * ManifestRoute);
  routeModules : list (string * RouteModule)
}.

Inductive Warning : Type :=
| WarnNoManifestEntry (id : string)
| WarnInvalidEntries (id : string)
| WarnDuplicateRoute (r : string) (entry existingEntryForRoute : SitemapEntry).

(* ================================================================== *)
(** ** defaultGetSitemapHandle *)
(* ================================================================== *)

Definition optTruthy (o : option string) : bool :=
  match o with Some s => truthy s | None => false end.

(** [parentId ? remixContext.manifest.routes[parentId] : null]. *)
Definition lookupParent (ctx : RemixContext) (pid : option string)
  : option ManifestRoute :=
  match pid with
  | Some p => if truthy p then assoc p (manifestRoutes ctx) else None
  | None => None
  end.

(** [handle?.getSitemapEntries === null]. *)
Definition optedOut (h : HandleValue) : bool :=
  match h with HandleObject PropNull => true | _ => false end.

(** [parent.path ? removeTrailingSlash(parent.path) : EMPTY], with EMPTY
    the empty string. *)
Definition parentPathOf (p : ManifestRoute) : string :=
  match path p with
  | Some s => if truthy s then removeTrailingSlash s else ""
  | None => ""
  end.

(** The [while (parent)] loop.  [Normal (Some path)] leaves the loop with
    the accumulated path, [Normal None] is the [return null] inside it,
    [Thrown] the property access on a missing module. *)
Fixpoint walkParents (fuel : nat) (ctx : RemixContext)
    (pid : option string) (parent : option ManifestRoute) (acc : string)
  : completion (option string) :=
  match parent with
  | None => Normal (Some acc)
  | Some p =>
      match fuel with
      | O => OutOfFuel
      | S fuel' =>
          let next :=
            let acc' := parentPathOf p ++ "/" ++ acc in
            let pid' := parentId p in
            walkParents fuel' ctx pid' (lookupParent ctx pid') acc' in
          if optTruthy pid then
            match pid with
            | Some i =>
                match assoc i (routeModules ctx) with
                | None => Thrown
                | Some m => if optedOut (handle m) then Normal None else next
                end
            | None => next
            end
          else next
      end
  end.

(** The route's own segment, or [None] for the [return null] branch. *)
Definition ownPath (e : ManifestRoute) : option string :=
  match path e with
  | Some s =>
      if truthy s then Some (removeTrailingSlash s)
      else match index e with Some true => Some "" | _ => None end
  | None => match index e with Some true => Some "" | _ => None end
  end.

Definition defaultGetSitemapHandle (fuel : nat) (ctx : RemixContext) (id : string)
  : completion jsval * list Warning :=
  match assoc id (manifestRoutes ctx) with
  | None => (Normal JNull, [WarnNoManifestEntry id])
  | Some manifestEntry =>
      let pid := parentId manifestEntry in
      let parent := lookupParent ctx pid in
      match ownPath manifestEntry with
      | None => (Normal JNull, [])
      | Some p0 =>
          match walkParents fuel ctx pid parent p0 with
          | Normal (Some p) =>
              if includes ":" p then (Normal JNull, [])
              else if (id =? "root")%string then (Normal JNull, [])
              else (Normal (JObj [("route", JStr (removeTrailingSlash p))]), [])
          | Normal None => (Normal JNull, [])
          | Thrown => (Thrown, [])
          | OutOfFuel => (OutOfFuel, [])
          end
      end
  end.

(* ================================================================== *)
(** ** isEqual *)
(* ================================================================== *)

(** [typeof v === 'object']. *)
Definition typeofObject (v : jsval) : bool :=
  match v with
  | JNull | JDate _ | JArr _ | JObj _ => true
  | _ => false
  end.

(** [v1 === v2] where at most one side is an object: two primitives of
    the same type are compared by value, everything else differs.  (Two
    objects never reach [!==] in [isEqual]: they are compared by the
    recursive call.)  Numbers are whole tenths: NaN, the one number that
    differs from itself, is not among the values. *)
Definition strictEq (v1 v2 : jsval) : bool :=
  match v1, v2 with
  | JUndefined, JUndefined => true
  | JNull, JNull => true
  | JBool a, JBool b => Bool.eqb a b
  | JNum a, JNum b => Z.eqb a b
  | JStr a, JStr b => String.eqb a b
  | _, _ => false
  end.

Definition indexKey (i : nat) : string :=
  NilZero.string_of_uint (Nat.to_uint i).

Fixpoint indexed {A : Type} (i : nat) (l : list A) : list (string * A) :=
  match l with
  | [] => []
  | x :: rest => (indexKey i, x) :: indexed (S i) rest
  end.

Fixpoint chars (s : string) : list jsval :=
  match s with
  | EmptyString => []
  | String c rest => JStr (String c EmptyString) :: chars rest
  end.

(** The enumerable own properties of a value, in [Object.keys] order;
    [None] where [Object.keys] throws.  A [Date], a number and a boolean
    have none. *)
Definition ownProps (v : jsval) : option (list (string * jsval)) :=
  match v with
  | JUndefined | JNull => None
  | JObj props => Some props
  | JArr elems => Some (indexed 0 elems)
  | JStr s => Some (indexed 0 (chars s))
  | JBool _ | JNum _ | JDate _ => Some []
  end.

(** [Object.keys(v)]. *)
Definition objectKeys (v : jsval) : option (list string) :=
  option_map (map fst) (ownProps v).

(** [v[key]] for an own property, [undefined] when there is none. *)
Definition getProp (v : jsval) (key : string) : jsval :=
  match ownProps v with
  | Some props => match assoc key props with Some x => x | None => JUndefined end
  | None => JUndefined
  end.

(** One turn of the [for (const key of keys1)] loop: [recur] is the
    recursive comparison, [rest] the remaining turns. *)
Definition isEqualStep (recur : jsval -> jsval -> completion bool)
    (val1 val2 : jsval) (rest : completion bool) : completion bool :=
  if typeofObject val1 && typeofObject val2 then
    match recur val1 val2 with
    | Normal true => rest
    | Normal false => Normal false
    | Thrown => Thrown
    | OutOfFuel => OutOfFuel
    end
  else if negb (strictEq val1 val2) then Normal false
  else rest.

Definition isEqualProps (recur : jsval -> jsval -> completion bool)
    (obj2 : jsval) : list (string * jsval) -> completion bool :=
  fix loop (props1 : list (string * jsval)) : completion bool :=
    match props1 with
    | [] => Normal true
    | (key, val1) :: rest =>
        isEqualStep recur val1 (getProp obj2 key) (loop rest)
    end.

Definition isEqualElems (recur : jsval -> jsval -> completion bool)
    (obj2 : jsval) : nat -> list jsval -> completion bool :=
  fix loop (i : nat) (elems1 : list jsval) : completion bool :=
    match elems1 with
    | [] => Normal true
    | val1 :: rest =>
        isEqualStep recur val1 (getProp obj2 (indexKey i)) (loop (S i) rest)
    end.

(** [isEqual] of the source.  The loop over [keys1] reads [obj1[key]]
    for each own key of [obj1], that is, it walks the properties of
    [obj1]. *)
Fixpoint isEqual (obj1 obj2 : jsval) {struct obj1} : completion bool :=
  match objectKeys obj1, objectKeys obj2 with
  | Some keys1, Some keys2 =>
      if negb (List.length keys1 =? List.length keys2)%nat then Normal false
      else
        match obj1 with
        | JObj props1 => isEqualProps isEqual obj2 props1
        | JArr elems1 => isEqualElems isEqual obj2 0 elems1
        | JStr s =>
            isEqualProps (fun _ _ => Normal true) obj2 (indexed 0 (chars s))
        | _ => Normal true
        end
  | _, _ => Thrown
  end.

(* ================================================================== *)
(** ** The zod schemas *)
(* ================================================================== *)

(** [z.date()]: a [Date] that is not invalid. *)
Definition parseDate (v : jsval) : option Z :=
  match v with JDate (Some t) => Some t | _ => None end.

(** [z.enum([...])]. *)
Definition parseChangeFreq (v : jsval) : option ChangeFreq :=
  match v with
  | JStr s => find (fun c => (changeFreqName c =? s)%string) allChangeFreqs
  | _ => None
  end.

(** [z.union([z.literal(0.0), ..., z.literal(1.0)])]. *)
Definition parsePriority (v : jsval) : option Priority :=
  match v with
  | JNum k => find (fun p => (priorityTenths p =? k)%Z) allPriorities
  | _ => None
  end.

(** [.optional()] on a key of [z.object]: a missing key and [undefined]
    are accepted; the key is copied to the output when the input has
    it. *)
Definition parseOptional {A : Type} (parse : jsval -> option A)
    (key : string) (props : list (string * jsval)) : option (optional A) :=
  match assoc key props with
  | None => Some KeyAbsent
  | Some JUndefined => Some KeyUndefined
  | Some v => option_map KeyValue (parse v)
  end.

(** [SitemapEntrySchema.safeParse]: [None] when [success] is false.
    Keys outside the schema are dropped. *)
Definition SitemapEntrySchema_safeParse (v : jsval) : option SitemapEntry :=
  match v with
  | JObj props =>
      match assoc "route" props with
      | Some (JStr r) =>
          match parseOptional parseDate "lastmod" props,
                parseOptional parseChangeFreq "changefreq" props,
                parseOptional parsePriority "priority" props with
          | Some l, Some c, Some p => Some (mkSitemapEntry r l c p)
          | _, _, _ => None
          end
      | _ => None
      end
  | _ => None
  end.

Fixpoint parseAll (elems : list jsval) : option (list SitemapEntry) :=
  match elems with
  | [] => Some []
  | v :: rest =>
      match SitemapEntrySchema_safeParse v, parseAll rest with
      | Some e, Some es => Some (e :: es)
      | _, _ => None
      end
  end.

(** [SitemapEntriesSchema.safeParse], [z.array(SitemapEntrySchema).nullable()]:
    [None] when [success] is false, [Some None] for the data [null]. *)
Definition SitemapEntriesSchema_safeParse (v : jsval)
  : option (option (list SitemapEntry)) :=
  match v with
  | JNull => Some None
  | JArr elems => option_map Some (parseAll elems)
  | _ => None
  end.

(** [HandleSchema.safeParse(mod.handle)] followed by
    [handleResult.data?.getSitemapEntries]: [None] when [success] is
    false. *)
Definition HandleSchema_safeParse (h : HandleValue) : option GetSitemapEntriesProp :=
  match h with
  | HandleUndefined => Some PropUndefined
  | HandleObject PropOther => None
  | HandleObject g => Some g
  | HandleOther => None
  end.

(* ================================================================== *)
(** ** getSitemapXml *)
(* ================================================================== *)

(** [Array.isArray(rawEntries) ? rawEntries : [rawEntries]]. *)
Definition toArray (raw : jsval) : jsval :=
  match raw with
  | JArr _ => raw
  | _ => JArr [raw]
  end.

(** [`${n}`] for a number given in tenths. *)
Definition numberToString (tenths : Z) : string :=
  let a := Z.abs tenths in
  (if (tenths <? 0)%Z then "-" else "")
    ++ NilZero.string_of_uint (N.to_uint (Z.to_N (a / 10)))
    ++ (if (a mod 10 =? 0)%Z then ""
        else "." ++ NilZero.string_of_uint (N.to_uint (Z.to_N (a mod 10)))).

Definition dq : string := String (ascii_of_nat 34) EmptyString.

Section Generation.

(** The request, the helper [getDomainUrl] imported from
    [misc.server.ts] and the built-in [Date.prototype.toISOString] are
    parameters of the development. *)
Variable Request : Type.
Variable getDomainUrl : Request -> string.
Variable toISOString : Z -> string.

(** [getEntry] of the source, closed over [domainUrl]. *)
Definition getEntry (domainUrl : string) (e : SitemapEntry) : string :=
  trim
    (nl ++ "<url>" ++ nl
     ++ tab ++ "<loc>" ++ domainUrl ++ route e ++ "</loc>" ++ nl
     ++ tab ++ (match optValue (lastmod e) with
                | Some d => "<lastmod>" ++ toISOString d ++ "</lastmod>"
                | None => ""
                end) ++ nl
     ++ tab ++ (match optValue (changefreq e) with
                | Some c =>
                    if truthy (changeFreqName c)
                    then "<changefreq>" ++ changeFreqName c ++ "</changefreq>"
                    else ""
                | None => ""
                end) ++ nl
     ++ tab ++ (match optValue (priority e) with
                | Some p =>
                    if negb (priorityTenths p =? 0)%Z
                    then "<priority>" ++ numberToString (priorityTenths p)
                         ++ "</priority>"
                    else ""
                | None => ""
                end) ++ nl
     ++ "</url>" ++ nl
     ++ tab).

(** The callback mapped over [Object.entries(remixContext.routeModules)]:
    [Normal None] is its [null], and the warnings are those it prints. *)
Definition collectRoute (fuel : nat) (ctx : RemixContext)
    (id : string) (mod_ : RouteModule)
  : completion (option (list SitemapEntry)) * list Warning :=
  if (id =? "root")%string then (Normal None, [])
  else
    let isResourceRoute := negb (hasDefault mod_) in
    match HandleSchema_safeParse (handle mod_) with
    | None => (Normal None, [])
    | Some PropNull => (Normal None, [])
    | Some routeGetSitemapEntries =>
        let declared :=
          match routeGetSitemapEntries with
          | PropFunction _ => true
          | _ => false
          end in
        if negb declared && isResourceRoute then (Normal None, [])
        else
          let '(rawEntries, log) :=
            match routeGetSitemapEntries with
            | PropFunction f => (f id, [])
            | _ => defaultGetSitemapHandle fuel ctx id
            end in
          match rawEntries with
          | Thrown => (Thrown, log)
          | OutOfFuel => (OutOfFuel, log)
          | Normal JNull => (Normal None, log)
          | Normal raw =>
              let rawEntryArray := toArray raw in
              match SitemapEntriesSchema_safeParse rawEntryArray with
              | None => (Normal None, (log ++ [WarnInvalidEntries id])%list)
              | Some entries =>
                  (* entries ? entries.flat().filter(Boolean) : null;
                     parsed entries are objects, which [flat] and
                     [filter(Boolean)] keep as they are *)
                  (Normal entries, log)
              end
          end
    end.

(** [Promise.all] over the routes, then [.flatMap(z => z).filter(Boolean)]:
    the entries of the routes that gave some, in route order.  A route
    that throws rejects the whole; the warnings of all routes are kept.
    The log lists the warnings route by route; the order in which they
    are printed is not modelled (the resolver's warnings are printed
    before the first [await], the others after it). *)
Fixpoint collectAll (fuel : nat) (ctx : RemixContext)
    (mods : list (string * RouteModule))
  : completion (list SitemapEntry) * list Warning :=
  match mods with
  | [] => (Normal [], [])
  | (id, mod_) :: rest =>
      let '(r, log1) := collectRoute fuel ctx id mod_ in
      let '(rs, log2) := collectAll fuel ctx rest in
      (match r, rs with
       | Normal entries, Normal more =>
           Normal ((match entries with Some es => es | None => [] end) ++ more)%list
       | Normal _, other => other
       | Thrown, OutOfFuel => OutOfFuel
       | Thrown, _ => Thrown
       | OutOfFuel, _ => OutOfFuel
       end, (log1 ++ log2)%list)
  end.

(** The loop filling [sitemapEntries]: one turn for [entry]. *)
Definition dedupStep (st : completion (list SitemapEntry * list Warning))
    (entry : SitemapEntry) : completion (list SitemapEntry * list Warning) :=
  match st with
  | Normal (sitemapEntries, log) =>
      match find (fun e => (route e =? route entry)%string) sitemapEntries with
      | Some existingEntryForRoute =>
          match isEqual (entryObject existingEntryForRoute) (entryObject entry) with
          | Normal true => Normal (sitemapEntries, log)
          | Normal false =>
              Normal (sitemapEntries,
                      (log ++ [WarnDuplicateRoute (route entry) entry
                                 existingEntryForRoute])%list)
          | Thrown => Thrown
          | OutOfFuel => OutOfFuel
          end
      | None => Normal ((sitemapEntries ++ [entry])%list, log)
      end
  | Thrown => Thrown
  | OutOfFuel => OutOfFuel
  end.

Definition dedup (rawSitemapEntries : list SitemapEntry)
  : completion (list SitemapEntry * list Warning) :=
  fold_left dedupStep rawSitemapEntries (Normal ([], [])).

(** The document written around the [<url>] blocks. *)
Definition document (blocks : list string) : string :=
  trim
    (nl ++ "<?xml version=" ++ dq ++ "1.0" ++ dq ++ " encoding=" ++ dq
     ++ "UTF-8" ++ dq ++ "?>" ++ nl
     ++ "<urlset" ++ nl
     ++ tab ++ "xmlns=" ++ dq ++ "http://www.sitemaps.org/schemas/sitemap/0.9"
     ++ dq ++ nl
     ++ tab ++ "xmlns:xsi=" ++ dq ++ "http://www.w3.org/2001/XMLSchema-instance"
     ++ dq ++ nl
     ++ tab ++ "xsi:schemaLocation=" ++ dq
     ++ "http://www.sitemaps.org/schemas/sitemap/0.9 http://www.sitemaps.org/schemas/sitemap/0.9/sitemap.xsd"
     ++ dq ++ nl
     ++ ">" ++ nl
     ++ tab ++ join_empty blocks ++ nl
     ++ "</urlset>" ++ nl
     ++ tab).

(** [getSitemapXml]: the document, or the abrupt end of the generation,
    with the warnings printed on the way. *)
Definition getSitemapXml (fuel : nat) (request : Request) (ctx : RemixContext)
  : completion string * list Warning :=
  let domainUrl := getDomainUrl request in
  let '(raw, log1) := collectAll fuel ctx (routeModules ctx) in
  match raw with
  | Normal rawSitemapEntries =>
      match dedup rawSitemapEntries with
      | Normal (sitemapEntries, log2) =>
          (Normal (document (map (getEntry domainUrl) sitemapEntries)),
           (log1 ++ log2)%list)
      | Thrown => (Thrown, log1)
      | OutOfFuel => (OutOfFuel, log1)
      end
  | Thrown => (Thrown, log1)
  | OutOfFuel => (OutOfFuel, log1)
  end.

End Generation.

(* ================================================================== *)
(** ** The ancestor chain of a route, as the loop visits it *)
(* ================================================================== *)

(** The ancestors met by the walk from [pid] upwards, nearest first;
    [None] when [fuel] steps do not reach the top. *)
Fixpoint ancestorsOf (fuel : nat) (ctx : RemixContext) (pid : option string)
  : option (list (string * ManifestRoute)) :=
  match lookupParent ctx pid, pid with
  | Some p, Some i =>
      match fuel with
      | O => None
      | S fuel' =>
          option_map (cons (i, p)) (ancestorsOf fuel' ctx (parentId p))
      end
  | _, _ => Some []
  end.

Definition modulePresent (ctx : RemixContext) (a : string * ManifestRoute) : bool :=
  match assoc (fst a) (routeModules ctx) with Some _ => true | None => false end.

Definition ancestorOptedOut (ctx : RemixContext) (a : string * ManifestRoute) : bool :=
  match assoc (fst a) (routeModules ctx) with
  | Some m => optedOut (handle m)
  | None => false
  end.

(** The segments from the root down to the route's own segment [own]. *)
Definition segments (ancs : list (string * ManifestRoute)) (own : string)
  : list string :=
  (rev (map (fun a => parentPathOf (snd a)) ancs) ++ [own])%list.

(** The segments joined with ['/']. *)
Definition joinedPath (ancs : list (string * ManifestRoute)) (own : string)
  : string :=
  String.concat "/" (segments ancs own).

(** The loop unrolled along a known chain. *)
Fixpoint walkChain (ctx : RemixContext) (ancs : list (string * ManifestRoute))
    (acc : string) : completion (option string) :=
  match ancs with
  | [] => Normal (Some acc)
  | (i, p) :: rest =>
      match assoc i (routeModules ctx) with
      | None => Thrown
      | Some m =>
          if optedOut (handle m) then Normal None
          else walkChain ctx rest (parentPathOf p ++ "/" ++ acc)
      end
  end.


(* ================================================================== *)
(** ** What [isEqual] computes on two entries *)
(* ================================================================== *)

(** Whether an optional property puts a key on the object. *)
Definition keyPresent {A : Type} (o : optional A) : nat :=
  match o with KeyAbsent => 0 | _ => 1 end.

Definition keyCount (e : SitemapEntry) : nat :=
  1 + keyPresent (lastmod e) + keyPresent (changefreq e) + keyPresent (priority e).

(** The turn of the loop for one optional key of the first object:
    nothing when the first object lacks the key, otherwise the values
    read from the two objects are compared. *)
Definition fieldAgrees {A : Type} (same : A -> A -> bool) (o1 o2 : optional A)
  : bool :=
  match o1 with
  | KeyAbsent => true
  | KeyUndefined => match optValue o2 with Some _ => false | None => true end
  | KeyValue a => match optValue o2 with Some b => same a b | None => false end
  end.

Definition entriesAgree (e1 e2 : SitemapEntry) : bool :=
  (keyCount e1 =? keyCount e2)%nat
  && (route e1 =? route e2)%string
  && fieldAgrees (fun _ _ => true) (lastmod e1) (lastmod e2)
  && fieldAgrees (fun a b => (changeFreqName a =? changeFreqName b)%string)
       (changefreq e1) (changefreq e2)
  && fieldAgrees (fun a b => (priorityTenths a =? priorityTenths b)%Z)
       (priority e1) (priority e2).

Definition isNormal {A : Type} (c : completion A) : bool :=
  match c with Normal _ => true | _ => false end.

(** The handle declares an entry function. *)
Definition declaresEntryFunction (h : HandleValue) : bool :=
  match h with
  | HandleObject (PropFunction _) => true
  | _ => false
  end.

(** The properties of an entry object, over plain strings and numbers. *)
Definition shapeProps (r : string) (l : optional Z) (c : optional string)
    (p : optional Z) : list (string * jsval) :=
  (("route", JStr r)
     :: optProp "lastmod" (fun t => JDate (Some t)) l
     ++ optProp "changefreq" JStr c
     ++ optProp "priority" JNum p)%list.

Definition optMap {A B : Type} (f : A -> B) (o : optional A) : optional B :=
  match o with
  | KeyAbsent => KeyAbsent
  | KeyUndefined => KeyUndefined
  | KeyValue a => KeyValue (f a)
  end.

(** The three optional elements of a [<url>] block. *)
Definition lastmodElement (toISOString : Z -> string) (e : SitemapEntry) : string :=
  match optValue (lastmod e) with
  | Some d => "<lastmod>" ++ toISOString d ++ "</lastmod>"
  | None => ""
  end.

Definition changefreqElement (e : SitemapEntry) : string :=
  match optValue (changefreq e) with
  | Some c => "<changefreq>" ++ changeFreqName c ++ "</changefreq>"
  | None => ""
  end.

Definition priorityElement (e : SitemapEntry) : string :=
  match optValue (priority e) with
  | Some P0_0 => ""
  | Some p => "<priority>" ++ numberToString (priorityTenths p) ++ "</priority>"
  | None => ""
  end.

(* ================================================================== *)
(** ** Checks used to state further properties *)
(* ================================================================== *)

(** Every route whose parent is found in the manifest has a parent of
    strictly lower [depth]: the parent links form a forest. *)
Definition parentsRankLower (depth : string -> nat) (ctx : RemixContext) : bool :=
  forallb
    (fun ip : string * ManifestRoute =>
       match parentId (snd ip), lookupParent ctx (parentId (snd ip)) with
       | Some j, Some _ => (depth j <? depth (fst ip))%nat
       | _, _ => true
       end)
    (manifestRoutes ctx).

(** No two entries of the list have the same route. *)
Fixpoint distinctRoutes (l : list SitemapEntry) : bool :=
  match l with
  | [] => true
  | e :: rest =>
      negb (existsb (fun x => (route x =? route e)%string) rest)
      && distinctRoutes rest
  end.

(** No two properties of the list have the same key. *)
Fixpoint distinctKeys (props : list (string * jsval)) : bool :=
  match props with
  | [] => true
  | (k, _) :: rest =>
      negb (existsb (fun kv => (fst kv =? k)%string) rest) && distinctKeys rest
  end.

(** The entry binds none of its optional keys to undefined. *)
Definition noUndefinedKey (e : SitemapEntry) : bool :=
  match lastmod e, changefreq e, priority e with
  | KeyUndefined, _, _ | _, KeyUndefined, _ | _, _, KeyUndefined => false
  | _, _, _ => true
  end.

(** The text of the document in front of the [<url>] blocks. *)
Definition prologue : string :=
  "<?xml version=" ++ dq ++ "1.0" ++ dq ++ " encoding=" ++ dq
  ++ "UTF-8" ++ dq ++ "?>" ++ nl
  ++ "<urlset" ++ nl
  ++ tab ++ "xmlns=" ++ dq ++ "http://www.sitemaps.org/schemas/sitemap/0.9"
  ++ dq ++ nl
  ++ tab ++ "xmlns:xsi=" ++ dq ++ "http://www.w3.org/2001/XMLSchema-instance"
  ++ dq ++ nl
  ++ tab ++ "xsi:schemaLocation=" ++ dq
  ++ "http://www.sitemaps.org/schemas/sitemap/0.9 http://www.sitemaps.org/schemas/sitemap/0.9/sitemap.xsd"
  ++ dq ++ nl
  ++ ">" ++ nl
  ++ tab.

(** What the loop keeps true of the entries [done] it has been through,
    the list [es] it has accepted and the warnings [log] it has printed:
    accepted routes are distinct; each accepted entry is the first of
    [done] with its route; every route of [done] is accepted; an entry
    is accepted or dropped, and only a dropped one can be warned about;
    a warning names a dropped entry and the accepted entry of the same
    route that [isEqual] told apart from it. *)
Definition dedupInvariant (done es : list SitemapEntry) (log : list Warning)
  : Prop :=
  NoDup (map route es)
  /\ (forall e, In e es ->
                find (fun x => (route x =? route e)%string) done = Some e)
  /\ (forall x, In x done -> In (route x) (map route es))
  /\ List.length es + List.length log <= List.length done
  /\ (forall w, In w log ->
        exists entry ex,
          w = WarnDuplicateRoute (route entry) entry ex
          /\ In entry done /\ In ex es /\ route ex = route entry
          /\ entriesAgree ex entry = false).

(* ================================================================== *)
(** ** Route trees used in the examples *)
(* ================================================================== *)

Module Examples.

Definition plainModule : RouteModule := mkRouteModule true HandleUndefined.
Definition optOutModule : RouteModule :=
  mkRouteModule true (HandleObject PropNull).

Definition rootRoute : ManifestRoute := mkManifestRoute None (Some "") None.

(** [root] > [routes/blog] (path [blog]) > [routes/blog.posts] (path
    [posts]) and [routes/blog.$slug] (path [:slug]). *)
Definition blogRoute : ManifestRoute :=
  mkManifestRoute (Some "root") (Some "blog") None.
Definition postsRoute : ManifestRoute :=
  mkManifestRoute (Some "routes/blog") (Some "posts") None.
Definition slugRoute : ManifestRoute :=
  mkManifestRoute (Some "routes/blog") (Some ":slug") None.

Definition blogManifest : list (string * ManifestRoute) :=
  [("root", rootRoute); ("routes/blog", blogRoute);
   ("routes/blog.posts", postsRoute); ("routes/blog.$slug", slugRoute)].

Definition blogCtx : RemixContext :=
  mkRemixContext blogManifest
    [("root", plainModule); ("routes/blog", plainModule);
     ("routes/blog.posts", plainModule); ("routes/blog.$slug", plainModule)].

(** The same tree where [routes/blog] has opted out. *)
Definition blogOptOutCtx : RemixContext :=
  mkRemixContext blogManifest
    [("root", plainModule); ("routes/blog", optOutModule);
     ("routes/blog.posts", plainModule); ("routes/blog.$slug", plainModule)].

(** [root] > [routes/_layout] (a layout route without a path) >
    [routes/_layout._index] (its index route). *)
Definition layoutRoute : ManifestRoute :=
  mkManifestRoute (Some "root") None None.
Definition layoutIndexRoute : ManifestRoute :=
  mkManifestRoute (Some "routes/_layout") None (Some true).

Definition layoutCtx : RemixContext :=
  mkRemixContext
    [("root", rootRoute); ("routes/_layout", layoutRoute);
     ("routes/_layout._index", layoutIndexRoute)]
    [("root", plainModule); ("routes/_layout", plainModule);
     ("routes/_layout._index", plainModule)].

(** Two entries for [/a]: the first binds [changefreq] to undefined and
    has no priority, the second has priority [0.5]. *)
Definition undefinedFreqEntry : SitemapEntry :=
  mkSitemapEntry "/a" KeyAbsent KeyUndefined KeyAbsent.
Definition priorityEntry : SitemapEntry :=
  mkSitemapEntry "/a" KeyAbsent KeyAbsent (KeyValue P0_5).

Definition returning (v : jsval) : HandleValue :=
  HandleObject (PropFunction (fun _ => Normal v)).

(** Two routes whose entry functions return those two entries. *)
Definition conflictCtx : RemixContext :=
  mkRemixContext
    [("root", rootRoute)]
    [("root", plainModule);
     ("routes/a",
      mkRouteModule true
        (returning (JObj [("route", JStr "/a"); ("changefreq", JUndefined)])));
     ("routes/b",
      mkRouteModule true
        (returning (JObj [("route", JStr "/a"); ("priority", JNum 5)])))].

(** [routes/feed] returns an entry and a null in one array;
    [routes/bad] returns an entry with priority [1.5];
    [routes/about] returns one valid entry. *)
Definition feedModule : RouteModule :=
  mkRouteModule true
    (returning (JArr [JObj [("route", JStr "/feed")]; JNull])).
Definition badModule : RouteModule :=
  mkRouteModule true
    (returning (JObj [("route", JStr "/bad"); ("priority", JNum 15)])).
Definition aboutModule : RouteModule :=
  mkRouteModule true (returning (JObj [("route", JStr "/about")])).

Definition mixedCtx : RemixContext :=
  mkRemixContext
    [("root", rootRoute)]
    [("root", plainModule); ("routes/bad", badModule);
     ("routes/about", aboutModule)].

Definition feedCtx : RemixContext :=
  mkRemixContext
    [("root", rootRoute)]
    [("root", plainModule); ("routes/feed", feedModule);
     ("routes/about", aboutModule)].

(** A resource route: no default export, no handle. *)
Definition resourceModule : RouteModule := mkRouteModule false HandleUndefined.

Definition zeroPriorityEntry : SitemapEntry :=
  mkSitemapEntry "/a" KeyAbsent KeyAbsent (KeyValue P0_0).

End Examples.

Module MoreExamples.

(** The depth of the routes of [Examples.blogCtx]. *)
Definition blogDepth (id : string) : nat :=
if (id =? "root")%string then 0
else if (id =? "routes/blog")%string then 1
else 2.

(** A manifest whose route [routes/loop] names itself as its parent. *)
Definition loopRoute : ManifestRoute :=
mkManifestRoute (Some "routes/loop") (Some "loop") None.

Definition loopCtx : RemixContext :=
mkRemixContext
  [("root", Examples.rootRoute); ("routes/loop", loopRoute)]
  [("root", Examples.plainModule); ("routes/loop", Examples.plainModule)].

Definition aboutEntry : SitemapEntry :=
mkSitemapEntry "/about" KeyAbsent KeyAbsent KeyAbsent.
Definition blogEntry : SitemapEntry :=
mkSitemapEntry "/blog" (KeyValue 1704067200000%Z) (KeyValue weekly)
  (KeyValue P0_8).
Definition blogEntryLater : SitemapEntry :=
mkSitemapEntry "/blog" KeyAbsent KeyAbsent (KeyValue P0_3).

(** A module whose entry function returns the empty array. *)
Definition emptyModule : RouteModule :=
mkRouteModule true (Examples.returning (JArr [])).

End MoreExamples.

Module IndexExamples.

(** [Examples.blogManifest] with the index route of [routes/blog]. *)
Definition blogIndexRoute : ManifestRoute :=
mkManifestRoute (Some "routes/blog") None (Some true).

Definition blogIndexCtx : RemixContext :=
mkRemixContext
  (("routes/blog._index", blogIndexRoute) :: Examples.blogManifest)
  [("root", Examples.plainModule); ("routes/blog", Examples.plainModule);
   ("routes/blog._index", Examples.plainModule)].

End IndexExamples.
(* ================================================================== *)
(** ** Facts about the string primitives *)
(* ================================================================== *)

Module StringFacts.

Lemma append_nil_r (s : string) : s ++ "" = s.
Proof. induction s as [|c s IH]; simpl; [reflexivity | now rewrite IH]. Qed.

Lemma append_assoc (a b c : string) : (a ++ b) ++ c = a ++ (b ++ c).
Proof. induction a as [|x a IH]; simpl; [reflexivity | now rewrite IH]. Qed.

Lemma append_eq_nil (a b : string) : a ++ b = "" -> a = "" /\ b = "".
Proof. destruct a; simpl; [auto | discriminate]. Qed.

Lemma endsWith_slash_nil : endsWith "/" "" = false.
Proof. reflexivity. Qed.

Lemma endsWith_slash_cons (c : ascii) (s : string) :
  s <> "" -> endsWith "/" (String c s) = endsWith "/" s.
Proof.
  intros Hs. destruct s as [|d s]; [congruence|].
  cbn [endsWith]. replace (String c (String d s) =? "/") with false; [reflexivity|].
  symmetry. apply String.eqb_neq. intros H. discriminate H.
Qed.

Lemma endsWith_slash_app (a b : string) :
  b <> "" -> endsWith "/" (a ++ b) = endsWith "/" b.
Proof.
  intros Hb. induction a as [|c a IH]; [reflexivity|].
  simpl append. rewrite endsWith_slash_cons; [exact IH|].
  intros H. apply append_eq_nil in H. tauto.
Qed.

Lemma endsWith_slash_split (s : string) :
  endsWith "/" s = true -> s = slice_0_m1 s ++ "/".
Proof.
  induction s as [|c s IH]; [discriminate|].
  destruct s as [|d s].
  - cbn. destruct (Ascii.eqb_spec c "/"); [subst; reflexivity | discriminate].
  - rewrite endsWith_slash_cons by discriminate.
    intros H. specialize (IH H).
    change (slice_0_m1 (String c (String d s)))
      with (String c (slice_0_m1 (String d s))).
    cbn [append]. f_equal. exact IH.
Qed.

Lemma slice_app_char (s : string) (c : ascii) :
  slice_0_m1 (s ++ String c "") = s.
Proof.
  induction s as [|d s IH]; [reflexivity|].
  simpl append. destruct s as [|e s]; [reflexivity|].
  change (slice_0_m1 (String d (String e s ++ String c "")))
    with (String d (slice_0_m1 (String e s ++ String c ""))).
  now rewrite IH.
Qed.

Lemma removeTrailingSlash_id (s : string) :
  endsWith "/" s = false -> removeTrailingSlash s = s.
Proof. unfold removeTrailingSlash. now intros ->. Qed.

Lemma removeTrailingSlash_app_slash (s : string) :
  removeTrailingSlash (s ++ "/") = s.
Proof.
  unfold removeTrailingSlash.
  rewrite endsWith_slash_app by discriminate.
  cbn [endsWith]. simpl. apply slice_app_char.
Qed.

Lemma endsWith_app_self (suffix a : string) :
  endsWith suffix (a ++ suffix) = true.
Proof.
  induction a as [|c a IH].
  - destruct suffix; cbn; [reflexivity|].
    now rewrite Ascii.eqb_refl, String.eqb_refl.
  - cbn [append endsWith]. rewrite IH. apply orb_true_r.
Qed.

(** Removing one trailing slash leaves none, unless there were two. *)
Lemma removeTrailingSlash_no_slash (s : string) :
  endsWith "//" s = false -> endsWith "/" (removeTrailingSlash s) = false.
Proof.
  intros H2. unfold removeTrailingSlash.
  destruct (endsWith "/" s) eqn:E; [|exact E].
  destruct (endsWith "/" (slice_0_m1 s)) eqn:E'; [|reflexivity].
  apply endsWith_slash_split in E. apply endsWith_slash_split in E'.
  rewrite E, E', append_assoc in H2.
  change ("/" ++ "/") with "//" in H2.
  now rewrite endsWith_app_self in H2.
Qed.

Lemma prefix_refl (s : string) : String.prefix s s = true.
Proof.
  induction s as [|c s IH]; [reflexivity|].
  cbn [String.prefix]. now destruct (ascii_dec c c).
Qed.

(** A suffix of a string occurs in it. *)
Lemma endsWith_includes (suffix s : string) :
  endsWith suffix s = true -> includes suffix s = true.
Proof.
  induction s as [|c s IH]; cbn [endsWith includes]; intros H.
  - rewrite orb_false_r in H. apply String.eqb_eq in H. subst suffix.
    reflexivity.
  - apply orb_true_iff in H as [H|H].
    + apply String.eqb_eq in H. subst suffix. now rewrite prefix_refl.
    + rewrite (IH H). apply orb_true_r.
Qed.

Lemma includes_char_nil (c : ascii) : includes (String c "") "" = false.
Proof. reflexivity. Qed.

Lemma includes_char_cons (c d : ascii) (s : string) :
  includes (String c "") (String d s)
  = (Ascii.eqb c d || includes (String c "") s)%bool.
Proof.
  cbn [includes String.prefix].
  destruct (ascii_dec c d) as [->|Hn].
  - rewrite Ascii.eqb_refl. now destruct s.
  - apply Ascii.eqb_neq in Hn. now rewrite Hn.
Qed.

Lemma includes_char_app (c : ascii) (a b : string) :
  includes (String c "") (a ++ b)
  = (includes (String c "") a || includes (String c "") b)%bool.
Proof.
  induction a as [|d a IH]; [reflexivity|].
  simpl append. rewrite !includes_char_cons, IH. now rewrite orb_assoc.
Qed.

Lemma includes_colon_removeTrailingSlash (s : string) :
  includes ":" (removeTrailingSlash s) = includes ":" s.
Proof.
  unfold removeTrailingSlash. destruct (endsWith "/" s) eqn:E; [|reflexivity].
  apply endsWith_slash_split in E. rewrite E at 2.
  rewrite includes_char_app. cbn. now rewrite orb_false_r.
Qed.

Lemma concat_snoc (sep x y : string) (l : list string) :
  String.concat sep (l ++ [x ++ sep ++ y])
  = String.concat sep ((l ++ [x]) ++ [y]).
Proof.
  induction l as [|a l IH]; [reflexivity|].
  destruct l as [|b l]; [reflexivity|].
  change (String.concat sep (((a :: b :: l) ++ [x]) ++ [y]))
    with (a ++ sep ++ String.concat sep (((b :: l) ++ [x]) ++ [y])).
  rewrite <- IH. reflexivity.
Qed.

Lemma includes_colon_concat (l : list string) :
  includes ":" (String.concat "/" l) = existsb (includes ":") l.
Proof.
  induction l as [|a l IH]; [reflexivity|].
  destruct l as [|b l].
  - cbn [String.concat existsb]. now rewrite orb_false_r.
  - change (String.concat "/" (a :: b :: l))
      with (a ++ "/" ++ String.concat "/" (b :: l)).
    rewrite !includes_char_app, IH. cbn [existsb].
    change (includes ":" "/") with false. reflexivity.
Qed.

Lemma concat_last_nonempty (sep y : string) (l : list string) :
  y <> "" -> String.concat sep (l ++ [y]) <> "".
Proof.
  intros Hy. induction l as [|a l IH]; [exact Hy|].
  destruct l as [|b l].
  - cbn. intros H. apply append_eq_nil in H as [_ H].
    apply append_eq_nil in H. tauto.
  - change (String.concat sep ((a :: b :: l) ++ [y]))
      with (a ++ sep ++ String.concat sep ((b :: l) ++ [y])).
    intros H. apply append_eq_nil in H as [_ H].
    apply append_eq_nil in H as [_ H]. now apply IH.
Qed.

Lemma endsWith_slash_concat_last (y : string) (l : list string) :
  y <> "" ->
  endsWith "/" (String.concat "/" (l ++ [y])) = endsWith "/" y.
Proof.
  intros Hy. induction l as [|a l IH]; [reflexivity|].
  destruct l as [|b l].
  - cbn [app String.concat]. rewrite !endsWith_slash_app; auto.
    intros H. apply append_eq_nil in H. tauto.
  - change (String.concat "/" ((a :: b :: l) ++ [y]))
      with (a ++ "/" ++ String.concat "/" ((b :: l) ++ [y])).
    rewrite !endsWith_slash_app; auto.
    + now apply concat_last_nonempty.
    + intros H. apply append_eq_nil in H as [H _]. discriminate.
Qed.

End StringFacts.

(* ================================================================== *)
(** ** The walk over the parents *)
(* ================================================================== *)

Module Resolver.

Import StringFacts.

Lemma lookupParent_some (ctx : RemixContext) (pid : option string)
    (p : ManifestRoute) :
  lookupParent ctx pid = Some p ->
  exists i, pid = Some i /\ truthy i = true
            /\ assoc i (manifestRoutes ctx) = Some p.
Proof.
  unfold lookupParent. destruct pid as [i|]; [|discriminate].
  destruct (truthy i) eqn:T; [|discriminate].
  intros H. exists i. auto.
Qed.

Lemma joinedPath_cons (i : string) (p : ManifestRoute)
    (rest : list (string * ManifestRoute)) (acc : string) :
  joinedPath ((i, p) :: rest) acc
  = joinedPath rest (parentPathOf p ++ "/" ++ acc).
Proof.
  unfold joinedPath, segments. cbn [map rev snd].
  symmetry. apply concat_snoc.
Qed.

(** With fuel for the whole chain the loop is its unrolling. *)
Lemma walkParents_chain (fuel : nat) (ctx : RemixContext) :
  forall (pid : option string) (ancs : list (string * ManifestRoute))
         (acc : string),
    ancestorsOf fuel ctx pid = Some ancs ->
    walkParents fuel ctx pid (lookupParent ctx pid) acc = walkChain ctx ancs acc.
Proof.
  induction fuel as [|fuel IH]; intros pid ancs acc H.
  - cbn in H. destruct (lookupParent ctx pid) eqn:L.
    + destruct pid; [discriminate|]. cbn in L. discriminate.
    + assert (ancs = []) as -> by (destruct pid; congruence).
      destruct (lookupParent ctx pid); [discriminate | reflexivity].
  - cbn [ancestorsOf] in H. destruct (lookupParent ctx pid) as [p|] eqn:L.
    + destruct (lookupParent_some _ _ L) as (i & -> & T & _).
      destruct (ancestorsOf fuel ctx (parentId p)) as [rest|] eqn:A;
        [|discriminate].
      cbn in H. injection H as <-.
      cbn [walkParents walkChain optTruthy]. rewrite T.
      destruct (assoc i (routeModules ctx)) as [m|]; [|reflexivity].
      destruct (optedOut (handle m)); [reflexivity|].
      now apply IH.
    + assert (ancs = []) as -> by (destruct pid; congruence).
      destruct fuel; reflexivity.
Qed.

(** More fuel does not change a chain that was already complete. *)
Lemma ancestorsOf_more (fuel : nat) (ctx : RemixContext) :
  forall (pid : option string) (ancs : list (string * ManifestRoute)),
    ancestorsOf fuel ctx pid = Some ancs ->
    ancestorsOf (S fuel) ctx pid = Some ancs.
Proof.
  induction fuel as [|fuel IH]; intros pid ancs H.
  - cbn in *. destruct (lookupParent ctx pid); [|exact H].
    destruct pid; [discriminate | exact H].
  - cbn [ancestorsOf] in *. destruct (lookupParent ctx pid) as [p|]; [|exact H].
    destruct pid as [i|]; [|exact H].
    destruct (ancestorsOf fuel ctx (parentId p)) as [rest|] eqn:A;
      [|discriminate].
    apply IH in A. cbn [ancestorsOf] in A. rewrite A. exact H.
Qed.

Lemma walkChain_static (ctx : RemixContext) :
  forall (ancs : list (string * ManifestRoute)) (acc : string),
    forallb (modulePresent ctx) ancs = true ->
    existsb (ancestorOptedOut ctx) ancs = false ->
    walkChain ctx ancs acc = Normal (Some (joinedPath ancs acc)).
Proof.
  induction ancs as [|[i p] rest IH]; intros acc HP HO; [reflexivity|].
  cbn [forallb existsb] in HP, HO.
  apply andb_true_iff in HP as [HP1 HP2].
  apply orb_false_iff in HO as [HO1 HO2].
  unfold modulePresent, ancestorOptedOut in HP1, HO1. cbn [fst] in HP1, HO1.
  cbn [walkChain]. destruct (assoc i (routeModules ctx)) as [m|]; [|discriminate].
  rewrite HO1, joinedPath_cons. now apply IH.
Qed.

(** Whatever the chain, the unrolled loop either throws, returns null
    because of an opt-out, or leaves with the joined path. *)
Lemma walkChain_cases (ctx : RemixContext) :
  forall (ancs : list (string * ManifestRoute)) (acc : string),
    (walkChain ctx ancs acc = Thrown
     /\ forallb (modulePresent ctx) ancs = false)
    \/ (walkChain ctx ancs acc = Normal None
        /\ existsb (ancestorOptedOut ctx) ancs = true)
    \/ (walkChain ctx ancs acc = Normal (Some (joinedPath ancs acc))
        /\ existsb (ancestorOptedOut ctx) ancs = false).
Proof.
  induction ancs as [|[i p] rest IH]; intros acc.
  - right; right. split; reflexivity.
  - cbn [walkChain forallb existsb].
    destruct (assoc i (routeModules ctx)) as [m|] eqn:E.
    + replace (modulePresent ctx (i, p)) with true
        by (unfold modulePresent; cbn [fst]; now rewrite E).
      replace (ancestorOptedOut ctx (i, p)) with (optedOut (handle m))
        by (unfold ancestorOptedOut; cbn [fst]; now rewrite E).
      destruct (optedOut (handle m)); [right; left; split; reflexivity|].
      rewrite joinedPath_cons. cbn [orb andb]. apply IH.
    + replace (modulePresent ctx (i, p)) with false
        by (unfold modulePresent; cbn [fst]; now rewrite E).
      left; split; reflexivity.
Qed.

Lemma walkChain_opted_out (ctx : RemixContext)
    (ancs : list (string * ManifestRoute)) (acc : string) :
  existsb (ancestorOptedOut ctx) ancs = true ->
  (walkChain ctx ancs acc = Normal None \/ walkChain ctx ancs acc = Thrown)
  /\ (forallb (modulePresent ctx) ancs = true ->
      walkChain ctx ancs acc = Normal None).
Proof.
  intros HO.
  destruct (walkChain_cases ctx ancs acc) as [[H1 H2]|[[H1 H2]|[H1 H2]]].
  - split; [now right | congruence].
  - split; [now left | auto].
  - congruence.
Qed.

End Resolver.

(* ================================================================== *)
(** ** Properties of the default resolver *)
(* ================================================================== *)

(** C1 (as amended).  For a route other than [root] whose manifest entry
    exists and has a non-empty path or is an index route, whose ancestor
    chain is finite with every ancestor module present and none opted
    out, and whose joined path (the segments from the root down to the
    route, each with its trailing slash removed, joined with [/]) holds
    neither a [:] nor two slashes in a row, the default resolver returns
    exactly one entry and no warning.  The route of the entry is the
    joined path with its trailing slash, if it has one, removed; it does
    not end in [/]; and when the route's own segment is not empty and
    does not end in [/] it is the joined path itself. *)
Theorem default_resolver_static_route :
  forall (fuel : nat) (ctx : RemixContext) (id : string) (e : ManifestRoute)
         (own : string) (ancs : list (string * ManifestRoute)),
    assoc id (manifestRoutes ctx) = Some e ->
    ownPath e = Some own ->
    (id =? "root") = false ->
    ancestorsOf fuel ctx (parentId e) = Some ancs ->
    forallb (modulePresent ctx) ancs = true ->
    existsb (ancestorOptedOut ctx) ancs = false ->
    includes ":" (joinedPath ancs own) = false ->
    includes "//" (joinedPath ancs own) = false ->
    defaultGetSitemapHandle fuel ctx id
    = (Normal (JObj [("route",
                      JStr (removeTrailingSlash (joinedPath ancs own)))]), [])
    /\ endsWith "/" (removeTrailingSlash (joinedPath ancs own)) = false
    /\ (truthy own = true -> endsWith "/" own = false ->
        removeTrailingSlash (joinedPath ancs own) = joinedPath ancs own).
Proof.
  intros fuel ctx id e own ancs He Hown Hid Hanc Hpres Hopt Hcolon Hslash.
  split; [|split].
  - unfold defaultGetSitemapHandle. rewrite He, Hown.
    rewrite (Resolver.walkParents_chain _ _ _ _ Hanc).
    rewrite (Resolver.walkChain_static _ _ _ Hpres Hopt).
    now rewrite Hcolon, Hid.
  - apply StringFacts.removeTrailingSlash_no_slash.
    destruct (endsWith "//" (joinedPath ancs own)) eqn:E; [|reflexivity].
    apply StringFacts.endsWith_includes in E. congruence.
  - intros Ht Hs.
    assert (Hne : own <> "") by (destruct own; [discriminate | congruence]).
    apply StringFacts.removeTrailingSlash_id.
    unfold joinedPath, segments.
    now rewrite StringFacts.endsWith_slash_concat_last.
Qed.

Lemma default_resolver_static_route_witness :
  defaultGetSitemapHandle 3 Examples.blogCtx "routes/blog.posts"
  = (Normal (JObj [("route", JStr "/blog/posts")]), [])
  /\ endsWith "/" "/blog/posts" = false.
Proof.
  pose proof (default_resolver_static_route 3 Examples.blogCtx
                "routes/blog.posts" (own := "posts")
                (ancs := [("routes/blog", Examples.blogRoute);
                          ("root", Examples.rootRoute)])
                eq_refl eq_refl eq_refl eq_refl eq_refl eq_refl eq_refl eq_refl)
    as [H1 [H2 _]].
  split; [exact H1 | exact H2].
Defined.

(** C1, as stated, fails on a layout route without a path: its manifest
    entry exists, no segment up to the root holds a [:] and no ancestor
    has opted out, and the resolver returns null.  On the index route
    below that layout the resolver returns the route [/], which ends in
    a slash. *)
Lemma default_resolver_static_route_counterexample :
  (assoc "routes/_layout" (manifestRoutes Examples.layoutCtx)
   = Some Examples.layoutRoute
   /\ ancestorsOf 3 Examples.layoutCtx (parentId Examples.layoutRoute)
      = Some [("root", Examples.rootRoute)]
   /\ existsb (ancestorOptedOut Examples.layoutCtx)
        [("root", Examples.rootRoute)] = false
   /\ existsb (includes ":")
        (map (fun a => parentPathOf (snd a)) [("root", Examples.rootRoute)])
      = false
   /\ path Examples.layoutRoute = None
   /\ defaultGetSitemapHandle 3 Examples.layoutCtx "routes/_layout"
      = (Normal JNull, []))
  /\ (defaultGetSitemapHandle 3 Examples.layoutCtx "routes/_layout._index"
      = (Normal (JObj [("route", JStr "/")]), [])
      /\ endsWith "/" "/" = true).
Proof. repeat split. Qed.

(** C4.  When a module on the ancestor chain of a route has set
    [getSitemapEntries] to null, the default resolver gives no entry for
    the route: it returns null, unless the module of a nearer ancestor is
    missing, where the property access throws. *)
Theorem default_resolver_inherits_opt_out :
  forall (fuel : nat) (ctx : RemixContext) (id : string) (e : ManifestRoute)
         (ancs : list (string * ManifestRoute)),
    assoc id (manifestRoutes ctx) = Some e ->
    ancestorsOf fuel ctx (parentId e) = Some ancs ->
    existsb (ancestorOptedOut ctx) ancs = true ->
    (defaultGetSitemapHandle fuel ctx id = (Normal JNull, [])
     \/ defaultGetSitemapHandle fuel ctx id = (Thrown, []))
    /\ (forallb (modulePresent ctx) ancs = true ->
        defaultGetSitemapHandle fuel ctx id = (Normal JNull, [])).
Proof.
  intros fuel ctx id e ancs He Hanc Hopt.
  unfold defaultGetSitemapHandle. rewrite He.
  destruct (ownPath e) as [own|]; [|split; auto].
  rewrite (Resolver.walkParents_chain _ _ _ _ Hanc).
  destruct (Resolver.walkChain_opted_out ctx ancs own Hopt) as [[H|H] H'].
  - rewrite H. split; auto.
  - rewrite H. split; [auto|]. intros Hp. rewrite (H' Hp) in H. discriminate.
Qed.

Lemma default_resolver_inherits_opt_out_witness :
  defaultGetSitemapHandle 3 Examples.blogOptOutCtx "routes/blog.posts"
  = (Normal JNull, []).
Proof.
  exact (proj2 (default_resolver_inherits_opt_out 3 Examples.blogOptOutCtx
                  "routes/blog.posts"
                  (ancs := [("routes/blog", Examples.blogRoute);
                            ("root", Examples.rootRoute)])
                  eq_refl eq_refl eq_refl) eq_refl).
Defined.

(** C7.  When the path resolved for a route (its segments joined from
    the root down) holds a [:], the default resolver gives no entry: it
    returns null, unless the module of an ancestor is missing, where the
    property access throws. *)
Theorem default_resolver_skips_dynamic :
  forall (fuel : nat) (ctx : RemixContext) (id : string) (e : ManifestRoute)
         (own : string) (ancs : list (string * ManifestRoute)),
    assoc id (manifestRoutes ctx) = Some e ->
    ownPath e = Some own ->
    ancestorsOf fuel ctx (parentId e) = Some ancs ->
    includes ":" (joinedPath ancs own) = true ->
    (defaultGetSitemapHandle fuel ctx id = (Normal JNull, [])
     \/ defaultGetSitemapHandle fuel ctx id = (Thrown, []))
    /\ (forallb (modulePresent ctx) ancs = true ->
        defaultGetSitemapHandle fuel ctx id = (Normal JNull, [])).
Proof.
  intros fuel ctx id e own ancs He Hown Hanc Hcolon.
  unfold defaultGetSitemapHandle. rewrite He, Hown.
  rewrite (Resolver.walkParents_chain _ _ _ _ Hanc).
  destruct (Resolver.walkChain_cases ctx ancs own) as [[H1 H2]|[[H1 H2]|[H1 H2]]];
    rewrite H1.
  - split; [auto | congruence].
  - split; auto.
  - rewrite Hcolon. split; auto.
Qed.

Lemma default_resolver_skips_dynamic_witness :
  defaultGetSitemapHandle 3 Examples.blogCtx "routes/blog.$slug"
  = (Normal JNull, []).
Proof.
  exact (proj2 (default_resolver_skips_dynamic 3 Examples.blogCtx
                  "routes/blog.$slug" (own := ":slug")
                  (ancs := [("routes/blog", Examples.blogRoute);
                            ("root", Examples.rootRoute)])
                  eq_refl eq_refl eq_refl eq_refl) eq_refl).
Defined.

(** A [:] in the joined path is a [:] in one of the segments. *)
Lemma joinedPath_dynamic (ancs : list (string * ManifestRoute)) (own : string) :
  includes ":" (joinedPath ancs own) = existsb (includes ":") (segments ancs own).
Proof. apply StringFacts.includes_colon_concat. Qed.

(* ================================================================== *)
(** ** isEqual and the de-duplication loop *)
(* ================================================================== *)

Module Dedup.

Ltac split_tests :=
  repeat (match goal with
          | |- context [(?a =? ?b)%string] => destruct (a =? b)%string
          | |- context [(?a =? ?b)%Z] => destruct (a =? b)%Z
          end; cbn).

Lemma isEqual_shapes r1 l1 c1 p1 r2 l2 c2 p2 :
  isEqual (JObj (shapeProps r1 l1 c1 p1)) (JObj (shapeProps r2 l2 c2 p2))
  = Normal ((1 + keyPresent l1 + keyPresent c1 + keyPresent p1
             =? 1 + keyPresent l2 + keyPresent c2 + keyPresent p2)%nat
            && (r1 =? r2)%string
            && fieldAgrees (fun _ _ => true) l1 l2
            && fieldAgrees String.eqb c1 c2
            && fieldAgrees Z.eqb p1 p2).
Proof.
  destruct l1, c1, p1, l2, c2, p2; cbn; split_tests; reflexivity.
Qed.

Lemma entryProps_shape (e : SitemapEntry) :
  entryProps e
  = shapeProps (route e) (lastmod e) (optMap changeFreqName (changefreq e))
      (optMap priorityTenths (priority e)).
Proof. destruct e as [r l c p]. destruct l, c, p; reflexivity. Qed.

(** [isEqual] never throws on two entries, and computes [entriesAgree]. *)
Lemma isEqual_entries (e1 e2 : SitemapEntry) :
  isEqual (entryObject e1) (entryObject e2) = Normal (entriesAgree e1 e2).
Proof.
  unfold entryObject. rewrite !entryProps_shape, isEqual_shapes.
  destruct e1 as [r1 l1 c1 p1], e2 as [r2 l2 c2 p2].
  unfold entriesAgree, keyCount. cbn [route lastmod changefreq priority].
  destruct l1, c1, p1, l2, c2, p2; reflexivity.
Qed.

Lemma changeFreqName_inj (a b : ChangeFreq) :
  changeFreqName a = changeFreqName b -> a = b.
Proof. destruct a, b; cbn; congruence. Qed.

Lemma priorityTenths_inj (a b : Priority) :
  priorityTenths a = priorityTenths b -> a = b.
Proof. destruct a, b; cbn; congruence. Qed.

Lemma fieldAgrees_refl {A : Type} (same : A -> A -> bool) (o : optional A) :
  (forall a, same a a = true) -> fieldAgrees same o o = true.
Proof. intros H. destruct o; cbn; auto. Qed.

Lemma entriesAgree_refl (e : SitemapEntry) : entriesAgree e e = true.
Proof.
  unfold entriesAgree.
  rewrite Nat.eqb_refl, String.eqb_refl, !fieldAgrees_refl; auto.
  - intros a. apply Z.eqb_refl.
  - intros a. apply String.eqb_refl.
Qed.

(** Two dates always agree: the lastmod values are never compared. *)
Lemma entriesAgree_lastmod (e1 e2 : SitemapEntry) (d1 d2 : Z) :
  route e1 = route e2 ->
  lastmod e1 = KeyValue d1 -> lastmod e2 = KeyValue d2 ->
  changefreq e1 = changefreq e2 -> priority e1 = priority e2 ->
  entriesAgree e1 e2 = true.
Proof.
  intros Hr Hl1 Hl2 Hc Hp. unfold entriesAgree, keyCount.
  rewrite Hr, Hl1, Hl2, Hc, Hp, Nat.eqb_refl, String.eqb_refl.
  rewrite !fieldAgrees_refl; auto.
  - intros a. apply Z.eqb_refl.
  - intros a. apply String.eqb_refl.
Qed.

(** A priority held by the first entry and not by the second is seen. *)
Lemma entriesAgree_priority (e1 e2 : SitemapEntry) (p1 : Priority) :
  priority e1 = KeyValue p1 ->
  optValue (priority e2) <> Some p1 ->
  entriesAgree e1 e2 = false.
Proof.
  intros H1 H2. unfold entriesAgree. rewrite H1.
  replace (fieldAgrees _ (KeyValue p1) (priority e2)) with false;
    [apply andb_false_r|].
  cbn. destruct (optValue (priority e2)) as [p2|]; [|reflexivity].
  symmetry. apply Z.eqb_neq. intros E. apply priorityTenths_inj in E.
  congruence.
Qed.

(** One turn of the loop, with [isEqual] replaced by what it computes. *)
Lemma dedupStep_normal (es : list SitemapEntry) (log : list Warning)
    (entry : SitemapEntry) :
  dedupStep (Normal (es, log)) entry
  = match find (fun e => (route e =? route entry)%string) es with
    | Some existing =>
        if entriesAgree existing entry then Normal (es, log)
        else Normal (es, (log ++ [WarnDuplicateRoute (route entry) entry
                                    existing])%list)
    | None => Normal ((es ++ [entry])%list, log)
    end.
Proof.
  unfold dedupStep.
  destruct (find _ es) as [existing|]; [|reflexivity].
  rewrite isEqual_entries. now destruct (entriesAgree existing entry).
Qed.

(** The loop always ends normally; it keeps what it had accepted, and
    every entry it is given ends up represented by an accepted entry
    with the same route. *)
Lemma fold_dedupStep (l : list SitemapEntry) :
  forall (es : list SitemapEntry) (log : list Warning),
  exists es' log',
    fold_left dedupStep l (Normal (es, log)) = Normal (es', log')
    /\ (forall e, In e es -> In e es')
    /\ (forall e, In e l -> exists e', In e' es' /\ route e' = route e).
Proof.
  induction l as [|a l IH]; intros es log.
  - exists es, log. cbn. repeat split; auto. intros e [].
  - cbn [fold_left]. rewrite dedupStep_normal.
    destruct (find (fun e => (route e =? route a)%string) es) as [ex|] eqn:F.
    + apply find_some in F as [Fin Fr]. apply String.eqb_eq in Fr.
      assert (exists log1,
                 (if entriesAgree ex a then Normal (es, log)
                  else Normal (es, (log ++ [WarnDuplicateRoute (route a) a ex])%list))
                 = Normal (es, log1)) as [log1 ->]
        by (destruct (entriesAgree ex a); eauto).
      destruct (IH es log1) as (es' & log' & H1 & H2 & H3).
      exists es', log'. repeat split; auto.
      intros e [<-|Hin]; [|now apply H3].
      exists ex. split; [now apply H2 | exact Fr].
    + destruct (IH (es ++ [a])%list log) as (es' & log' & H1 & H2 & H3).
      exists es', log'. repeat split; auto.
      * intros e He. apply H2, in_or_app. now left.
      * intros e [<-|Hin]; [|now apply H3].
        exists a. split; [|reflexivity].
        apply H2, in_or_app. right. now left.
Qed.

Lemma dedup_total (l : list SitemapEntry) :
  exists es log,
    dedup l = Normal (es, log)
    /\ (forall e, In e l -> exists e', In e' es /\ route e' = route e).
Proof.
  destruct (fold_dedupStep l [] []) as (es & log & H1 & _ & H3).
  exists es, log. split; assumption.
Qed.

End Dedup.

(** C10.  Two entries with the same route, the same changefreq and the
    same priority, each holding a lastmod date, are equal for [isEqual]
    whatever the two dates are: a [Date] has no own keys, so two dates
    compare equal.  The loop therefore keeps the first entry and prints
    no warning. *)
Theorem lastmod_difference_is_not_a_conflict :
  forall (e1 e2 : SitemapEntry) (d1 d2 : Z),
    route e1 = route e2 ->
    lastmod e1 = KeyValue d1 ->
    lastmod e2 = KeyValue d2 ->
    changefreq e1 = changefreq e2 ->
    priority e1 = priority e2 ->
    objectKeys (JDate (Some d1)) = Some []
    /\ isEqual (JDate (Some d1)) (JDate (Some d2)) = Normal true
    /\ isEqual (entryObject e1) (entryObject e2) = Normal true
    /\ dedup [e1; e2] = Normal ([e1], [])
    /\ (forall (es : list SitemapEntry) (log : list Warning),
           find (fun e => (route e =? route e2)%string) es = Some e1 ->
           dedupStep (Normal (es, log)) e2 = Normal (es, log)).
Proof.
  intros e1 e2 d1 d2 Hr Hl1 Hl2 Hc Hp.
  pose proof (Dedup.entriesAgree_lastmod e1 e2 Hr Hl1 Hl2 Hc Hp) as Hagree.
  split; [reflexivity|]. split; [reflexivity|].
  split; [now rewrite Dedup.isEqual_entries, Hagree|].
  split.
  - unfold dedup. cbn [fold_left].
    rewrite (Dedup.dedupStep_normal [] [] e1). cbn [find app].
    rewrite Dedup.dedupStep_normal. cbn [find].
    rewrite Hr, String.eqb_refl, Hagree. reflexivity.
  - intros es log F. now rewrite Dedup.dedupStep_normal, F, Hagree.
Qed.

Lemma lastmod_difference_is_not_a_conflict_witness :
  dedup [mkSitemapEntry "/blog" (KeyValue 1704067200000%Z) KeyAbsent KeyAbsent;
         mkSitemapEntry "/blog" (KeyValue 1735689600000%Z) KeyAbsent KeyAbsent]
  = Normal ([mkSitemapEntry "/blog" (KeyValue 1704067200000%Z) KeyAbsent KeyAbsent],
            []).
Proof.
  exact (proj1 (proj2 (proj2 (proj2
    (lastmod_difference_is_not_a_conflict
       (mkSitemapEntry "/blog" (KeyValue 1704067200000%Z) KeyAbsent KeyAbsent)
       (mkSitemapEntry "/blog" (KeyValue 1735689600000%Z) KeyAbsent KeyAbsent)
       eq_refl eq_refl eq_refl eq_refl eq_refl))))).
Defined.

Module DedupFacts.

(** An entry met again in the same form is dropped without a warning. *)
Lemma dedupStep_identical (es : list SitemapEntry) (log : list Warning)
    (e : SitemapEntry) :
  find (fun x => (route x =? route e)%string) es = Some e ->
  dedupStep (Normal (es, log)) e = Normal (es, log).
Proof.
  intros F. now rewrite Dedup.dedupStep_normal, F, Dedup.entriesAgree_refl.
Qed.

Lemma dedup_identical (e : SitemapEntry) : dedup [e; e] = Normal ([e], []).
Proof.
  unfold dedup. cbn [fold_left].
  rewrite (Dedup.dedupStep_normal [] [] e). cbn [find app].
  apply dedupStep_identical. cbn [find]. now rewrite String.eqb_refl.
Qed.

(** When the accepted entry holds a priority and the later entry for the
    same route does not hold that priority, the accepted entry stays,
    the later one is dropped and a warning names the route. *)
Lemma dedupStep_priority_conflict (es : list SitemapEntry)
    (log : list Warning) (e1 e2 : SitemapEntry) (p1 : Priority) :
  find (fun x => (route x =? route e2)%string) es = Some e1 ->
  priority e1 = KeyValue p1 ->
  optValue (priority e2) <> Some p1 ->
  dedupStep (Normal (es, log)) e2
  = Normal (es, (log ++ [WarnDuplicateRoute (route e2) e2 e1])%list).
Proof.
  intros F H1 H2.
  now rewrite Dedup.dedupStep_normal, F, (Dedup.entriesAgree_priority _ _ H1 H2).
Qed.

Lemma dedup_priority_conflict (e1 e2 : SitemapEntry) (p1 : Priority) :
  route e1 = route e2 ->
  priority e1 = KeyValue p1 ->
  optValue (priority e2) <> Some p1 ->
  dedup [e1; e2] = Normal ([e1], [WarnDuplicateRoute (route e2) e2 e1]).
Proof.
  intros Hr H1 H2. unfold dedup. cbn [fold_left].
  rewrite (Dedup.dedupStep_normal [] [] e1). cbn [find app].
  rewrite (@dedupStep_priority_conflict [e1] [] e1 e2 p1); auto.
  cbn [find]. now rewrite Hr, String.eqb_refl.
Qed.

End DedupFacts.

(** C2 (defect in [isEqual]).  The entry [{route: '/a', changefreq:
    undefined}] followed by [{route: '/a', priority: 0.5}]: both objects
    have two keys, and every key of the first reads the same value in
    the second, so [isEqual] answers true although the priorities
    differ.  The loop keeps the first entry and prints no warning, and so
    does the whole generation for two routes returning these entries. *)
Theorem dedup_misses_conflict_behind_undefined_key :
  route Examples.undefinedFreqEntry = route Examples.priorityEntry
  /\ optValue (priority Examples.undefinedFreqEntry) = None
  /\ optValue (priority Examples.priorityEntry) = Some P0_5
  /\ isEqual (entryObject Examples.undefinedFreqEntry)
       (entryObject Examples.priorityEntry) = Normal true
  /\ dedup [Examples.undefinedFreqEntry; Examples.priorityEntry]
     = Normal ([Examples.undefinedFreqEntry], [])
  /\ (forall (Request : Type) (getDomainUrl : Request -> string)
             (toISOString : Z -> string) (request : Request),
         getSitemapXml getDomainUrl toISOString 1 request Examples.conflictCtx
         = (Normal (document
                      [getEntry toISOString (getDomainUrl request)
                         Examples.undefinedFreqEntry]), [])).
Proof. repeat split. Qed.

(* ================================================================== *)
(** ** The collector *)
(* ================================================================== *)

Module Collector.

Lemma collectRoute_root (fuel : nat) (ctx : RemixContext) (m : RouteModule) :
  collectRoute fuel ctx "root" m = (Normal None, []).
Proof. reflexivity. Qed.

(** A null among the elements makes the array fail the schema. *)
Lemma parseAll_null (elems : list jsval) :
  In JNull elems -> parseAll elems = None.
Proof.
  induction elems as [|v rest IH]; intros H; [destruct H|].
  destruct H as [->|H]; [reflexivity|].
  cbn [parseAll]. rewrite (IH H).
  now destruct (SitemapEntrySchema_safeParse v).
Qed.

(** An entry function whose result fails the schema: the route gives
    null and one warning naming it. *)
Lemma collectRoute_invalid (fuel : nat) (ctx : RemixContext) (id : string)
    (m : RouteModule) (f : GetSitemapEntriesFunction) (raw : jsval) :
  (id =? "root") = false ->
  handle m = HandleObject (PropFunction f) ->
  f id = Normal raw ->
  strictEq raw JNull = false ->
  SitemapEntriesSchema_safeParse (toArray raw) = None ->
  collectRoute fuel ctx id m = (Normal None, [WarnInvalidEntries id]).
Proof.
  intros Hid Hh Hf Hn Hp. unfold collectRoute.
  rewrite Hid, Hh. cbn [HandleSchema_safeParse negb andb].
  rewrite Hf. destruct raw; try discriminate Hn; now rewrite Hp.
Qed.

(** A route that gives null adds no entry to the collection, and its
    warnings are printed. *)
Lemma collectAll_skip (fuel : nat) (ctx : RemixContext) (id : string)
    (m : RouteModule) (log0 : list Warning)
    (pre post : list (string * RouteModule)) :
  collectRoute fuel ctx id m = (Normal None, log0) ->
  fst (collectAll fuel ctx (pre ++ (id, m) :: post))
  = fst (collectAll fuel ctx (pre ++ post))
  /\ (forall w, In w log0 ->
                In w (snd (collectAll fuel ctx (pre ++ (id, m) :: post)))).
Proof.
  intros H. induction pre as [|[j mj] pre [IH1 IH2]].
  - cbn [app collectAll]. rewrite H.
    destruct (collectAll fuel ctx post) as [rs log2]. cbn [fst snd].
    split; [now destruct rs|].
    intros w Hw. apply in_or_app. now left.
  - cbn [app collectAll].
    destruct (collectRoute fuel ctx j mj) as [r log1].
    destruct (collectAll fuel ctx (pre ++ (id, m) :: post)) as [rs log2].
    destruct (collectAll fuel ctx (pre ++ post)) as [rs' log2'].
    cbn [fst snd] in *. subst rs'. split; [reflexivity|].
    intros w Hw. apply in_or_app. right. now apply IH2.
Qed.

(** When every route ends normally so does the collection, and it
    holds the entries of every route. *)
Lemma collectAll_normal (fuel : nat) (ctx : RemixContext)
    (mods : list (string * RouteModule)) :
  forallb (fun jm => isNormal (fst (collectRoute fuel ctx (fst jm) (snd jm))))
    mods = true ->
  exists raw,
    fst (collectAll fuel ctx mods) = Normal raw
    /\ (forall j mj es l e,
           In (j, mj) mods ->
           collectRoute fuel ctx j mj = (Normal (Some es), l) ->
           In e es -> In e raw).
Proof.
  induction mods as [|[j mj] mods IH]; intros H.
  - exists []. split; [reflexivity|]. intros ? ? ? ? ? [].
  - cbn [forallb fst snd] in H. apply andb_true_iff in H as [H1 H2].
    destruct (IH H2) as (raw & Hraw & Hcov).
    cbn [collectAll].
    destruct (collectRoute fuel ctx j mj) as [r log1] eqn:R.
    destruct (collectAll fuel ctx mods) as [rs log2].
    cbn [fst] in *. subst rs.
    destruct r as [entries| |]; try discriminate H1.
    eexists. split; [reflexivity|].
    intros j' mj' es l e [E|Hin] Hc He.
    + injection E as <- <-. rewrite R in Hc. injection Hc as -> _.
      apply in_or_app. now left.
    + apply in_or_app. right. eapply Hcov; eauto.
Qed.

(** The module of the root adds nothing to the collection. *)
Lemma collectAll_without_root (fuel : nat) (ctx : RemixContext)
    (mods : list (string * RouteModule)) :
  collectAll fuel ctx mods
  = collectAll fuel ctx
      (filter (fun jm => negb (fst jm =? "root")%string) mods).
Proof.
  induction mods as [|[j mj] mods IH]; [reflexivity|].
  cbn [filter fst]. destruct (j =? "root")%string eqn:E.
  - apply String.eqb_eq in E. subst j. cbn [negb collectAll].
    rewrite collectRoute_root, <- IH.
    destruct (collectAll fuel ctx mods) as [rs log2].
    now destruct rs.
  - cbn [negb collectAll]. now rewrite IH.
Qed.

End Collector.

(** C5 (defect).  An entry function returning an array that holds an
    entry and a null: the array fails the schema, whose elements are not
    nullable, so the route gives no entry at all and a warning is
    printed; in the document only the entry of the other route is left. *)
Theorem null_in_array_discards_the_route :
  SitemapEntriesSchema_safeParse
    (toArray (JArr [JObj [("route", JStr "/feed")]; JNull])) = None
  /\ (forall (fuel : nat) (ctx : RemixContext),
         collectRoute fuel ctx "routes/feed" Examples.feedModule
         = (Normal None, [WarnInvalidEntries "routes/feed"]))
  /\ (forall (Request : Type) (getDomainUrl : Request -> string)
             (toISOString : Z -> string) (request : Request),
         getSitemapXml getDomainUrl toISOString 1 request Examples.feedCtx
         = (Normal (document
                      [getEntry toISOString (getDomainUrl request)
                         (mkSitemapEntry "/about" KeyAbsent KeyAbsent KeyAbsent)]),
            [WarnInvalidEntries "routes/feed"])).
Proof. repeat split. Qed.

(** C8.  The root adds no entry: the collector returns null for the
    module named [root] without looking at it, so the collection is the
    one of the other modules; and the default resolver, called with
    [root], never returns an entry, and returns null whenever the walk
    over the parents ends. *)
Theorem root_is_never_listed :
  (forall (fuel : nat) (ctx : RemixContext) (m : RouteModule),
      collectRoute fuel ctx "root" m = (Normal None, []))
  /\ (forall (fuel : nat) (ctx : RemixContext)
             (mods : list (string * RouteModule)),
         collectAll fuel ctx mods
         = collectAll fuel ctx
             (filter (fun jm => negb (fst jm =? "root")%string) mods))
  /\ (forall (fuel : nat) (ctx : RemixContext) (v : jsval) (log : list Warning),
         defaultGetSitemapHandle fuel ctx "root" = (Normal v, log) -> v = JNull)
  /\ (forall (fuel : nat) (ctx : RemixContext),
         assoc "root" (manifestRoutes ctx) = None ->
         defaultGetSitemapHandle fuel ctx "root"
         = (Normal JNull, [WarnNoManifestEntry "root"]))
  /\ (forall (fuel : nat) (ctx : RemixContext) (e : ManifestRoute)
             (ancs : list (string * ManifestRoute)),
         assoc "root" (manifestRoutes ctx) = Some e ->
         ancestorsOf fuel ctx (parentId e) = Some ancs ->
         forallb (modulePresent ctx) ancs = true ->
         defaultGetSitemapHandle fuel ctx "root" = (Normal JNull, [])).
Proof.
  split; [exact Collector.collectRoute_root|].
  split; [exact Collector.collectAll_without_root|].
  split; [|split].
  - intros fuel ctx v log. unfold defaultGetSitemapHandle.
    destruct (assoc "root" (manifestRoutes ctx)) as [e|]; [|congruence].
    destruct (ownPath e) as [own|]; [|congruence].
    destruct (walkParents fuel ctx (parentId e)
                (lookupParent ctx (parentId e)) own) as [[p|]| |];
      try congruence.
    cbn. destruct (includes ":" p); congruence.
  - intros fuel ctx H. unfold defaultGetSitemapHandle. now rewrite H.
  - intros fuel ctx e ancs He Hanc Hp. unfold defaultGetSitemapHandle.
    rewrite He. destruct (ownPath e) as [own|]; [|reflexivity].
    rewrite (Resolver.walkParents_chain _ _ _ _ Hanc).
    destruct (Resolver.walkChain_cases ctx ancs own)
      as [[H1 H2]|[[H1 H2]|[H1 H2]]]; rewrite H1.
    + congruence.
    + reflexivity.
    + cbn. now destruct (includes ":" (joinedPath ancs own)).
Qed.

Lemma root_is_never_listed_witness :
  defaultGetSitemapHandle 1 Examples.blogCtx "root" = (Normal JNull, []).
Proof.
  exact (proj2 (proj2 (proj2 (proj2 root_is_never_listed))) 1 Examples.blogCtx
           Examples.rootRoute [] eq_refl eq_refl eq_refl).
Defined.

(** C9.  A module without a default export whose handle declares no
    entry function gives no entry and no warning, whatever else the
    handle is. *)
Theorem resource_route_without_function_is_skipped :
  forall (fuel : nat) (ctx : RemixContext) (id : string) (m : RouteModule),
    hasDefault m = false ->
    declaresEntryFunction (handle m) = false ->
    collectRoute fuel ctx id m = (Normal None, []).
Proof.
  intros fuel ctx id m Hd Hf. unfold collectRoute.
  destruct (id =? "root")%string; [reflexivity|].
  rewrite Hd. destruct (handle m) as [|[| |f|]|]; try reflexivity.
  discriminate Hf.
Qed.

Lemma resource_route_without_function_is_skipped_witness :
  collectRoute 3 Examples.blogCtx "routes/healthcheck" Examples.resourceModule
  = (Normal None, []).
Proof.
  exact (resource_route_without_function_is_skipped 3 Examples.blogCtx
           "routes/healthcheck" Examples.resourceModule eq_refl eq_refl).
Defined.

(* ================================================================== *)
(** ** The serialiser *)
(* ================================================================== *)

Module Serializer.

Import StringFacts.

Lemma trimEnd_app (s t : string) :
  trimEnd t <> "" -> trimEnd (s ++ t) = s ++ trimEnd t.
Proof.
  intros Ht. induction s as [|c s IH]; [reflexivity|].
  cbn [append trimEnd]. rewrite IH.
  destruct (s ++ trimEnd t) eqn:E; [|reflexivity].
  apply append_eq_nil in E. tauto.
Qed.

(** [trim] takes the line break in front of [<url>] and the line break
    and tab behind [</url>], whatever stands between the two tags. *)
Lemma trim_url_block (body : string) :
  trim (nl ++ "<url>" ++ body ++ "</url>" ++ nl ++ tab)
  = "<url>" ++ body ++ "</url>".
Proof.
  unfold trim.
  change (trimStart (nl ++ "<url>" ++ body ++ "</url>" ++ nl ++ tab))
    with ("<url>" ++ body ++ "</url>" ++ nl ++ tab).
  rewrite <- (append_assoc "<url>" body), trimEnd_app by discriminate.
  now rewrite append_assoc.
Qed.

Lemma changefreq_part (c : ChangeFreq) :
  (if truthy (changeFreqName c)
   then "<changefreq>" ++ changeFreqName c ++ "</changefreq>"
   else "")
  = "<changefreq>" ++ changeFreqName c ++ "</changefreq>".
Proof. now destruct c. Qed.

(** The block written for an entry: [<loc>] holds the origin followed
    by the route; [<lastmod>] and [<changefreq>] are there exactly
    when the entry holds a value for them; [<priority>] is there
    exactly when the entry holds a priority other than [0.0]. *)
Lemma getEntry_block (toISOString : Z -> string) (domainUrl : string)
    (e : SitemapEntry) :
  getEntry toISOString domainUrl e
  = "<url>" ++ nl
    ++ tab ++ "<loc>" ++ domainUrl ++ route e ++ "</loc>" ++ nl
    ++ tab ++ lastmodElement toISOString e ++ nl
    ++ tab ++ changefreqElement e ++ nl
    ++ tab ++ priorityElement e ++ nl
    ++ "</url>".
Proof.
  set (body := nl ++ tab ++ "<loc>" ++ domainUrl ++ route e ++ "</loc>" ++ nl
               ++ tab ++ lastmodElement toISOString e ++ nl
               ++ tab ++ changefreqElement e ++ nl
               ++ tab ++ priorityElement e ++ nl).
  transitivity (trim (nl ++ "<url>" ++ body ++ "</url>" ++ nl ++ tab)).
  - unfold getEntry, body, lastmodElement, changefreqElement, priorityElement.
    f_equal. f_equal. f_equal.
    destruct (optValue (lastmod e)) as [d|],
             (optValue (changefreq e)) as [c|],
             (optValue (priority e)) as [p|];
      try rewrite changefreq_part; try destruct p;
      cbn [priorityTenths Z.eqb negb]; rewrite ?append_assoc; reflexivity.
  - rewrite trim_url_block. unfold body. rewrite !append_assoc. reflexivity.
Qed.

End Serializer.

(** C6 (defect).  The entry [{route: '/a', priority: 0.0}] passes the
    schema, and its block has no [<priority>] element although the field
    is present: the template tests the truthiness of the number. *)
Theorem zero_priority_is_not_written :
  SitemapEntrySchema_safeParse (JObj [("route", JStr "/a"); ("priority", JNum 0)])
  = Some Examples.zeroPriorityEntry
  /\ optValue (priority Examples.zeroPriorityEntry) = Some P0_0
  /\ (forall (toISOString : Z -> string),
         getEntry toISOString "https://example.com" Examples.zeroPriorityEntry
         = "<url>" ++ nl
           ++ tab ++ "<loc>https://example.com/a</loc>" ++ nl
           ++ tab ++ nl
           ++ tab ++ nl
           ++ tab ++ nl
           ++ "</url>")
  /\ (forall (toISOString : Z -> string),
         includes "<priority>"
           (getEntry toISOString "https://example.com" Examples.zeroPriorityEntry)
         = false).
Proof. repeat split. Qed.

(* ================================================================== *)
(** ** Further properties: the path resolver *)
(* ================================================================== *)

Module ResolverMore.

Lemma assoc_In {A : Type} (k : string) (l : list (string * A)) (v : A) :
assoc k l = Some v -> In (k, v) l.
Proof.
induction l as [|[k' v'] l IH]; cbn [assoc]; [discriminate|].
destruct (String.eqb_spec k' k) as [->|Hn].
- intros H. injection H as ->. now left.
- intros H. right. now apply IH.
Qed.

(** In a ranked manifest the chain above a route is no longer than the
  depth of the route. *)
Lemma ranked_chain (depth : string -> nat) (ctx : RemixContext) :
parentsRankLower depth ctx = true ->
forall (fuel : nat) (id : string) (e : ManifestRoute),
  assoc id (manifestRoutes ctx) = Some e ->
  depth id <= fuel ->
  exists ancs, ancestorsOf fuel ctx (parentId e) = Some ancs.
Proof.
intros Hrank. unfold parentsRankLower in Hrank.
rewrite forallb_forall in Hrank.
induction fuel as [|fuel IH]; intros id e He Hd.
- pose proof (Hrank _ (assoc_In _ _ He)) as H. cbn [fst snd] in H.
  cbn [ancestorsOf].
  destruct (lookupParent ctx (parentId e)) as [q|] eqn:L.
  + destruct (Resolver.lookupParent_some _ _ L) as (j & Hj & _ & _).
    rewrite Hj in H. apply Nat.ltb_lt in H. lia.
  + exists []. now destruct (parentId e).
- pose proof (Hrank _ (assoc_In _ _ He)) as H. cbn [fst snd] in H.
  cbn [ancestorsOf].
  destruct (lookupParent ctx (parentId e)) as [q|] eqn:L.
  + destruct (Resolver.lookupParent_some _ _ L) as (j & Hj & _ & Hq).
    rewrite Hj in H |- *. apply Nat.ltb_lt in H.
    destruct (IH j q Hq ltac:(lia)) as [rest Hrest].
    rewrite Hrest. eexists. reflexivity.
  + exists []. now destruct (parentId e).
Qed.

(** A route that is its own parent keeps the loop going for ever. *)
Lemma walkParents_self_parent (ctx : RemixContext) (id : string)
  (e : ManifestRoute) (m : RouteModule) :
assoc id (manifestRoutes ctx) = Some e ->
parentId e = Some id ->
truthy id = true ->
assoc id (routeModules ctx) = Some m ->
optedOut (handle m) = false ->
forall (fuel : nat) (acc : string),
  walkParents fuel ctx (Some id) (Some e) acc = OutOfFuel.
Proof.
intros He Hp Ht Hm Ho. induction fuel as [|fuel IH]; intros acc; [reflexivity|].
cbn [walkParents optTruthy]. rewrite Ht, Hm, Ho, Hp.
unfold lookupParent. rewrite Ht, He. apply IH.
Qed.

End ResolverMore.

Module IndexMore.

Import StringFacts.

Lemma concat_last_slash (x : string) (l : list string) :
String.concat "/" (l ++ [x ++ "/"]) = String.concat "/" (l ++ [x]) ++ "/".
Proof.
induction l as [|a l IH]; [reflexivity|].
destruct l as [|b l].
- cbn [app String.concat]. now rewrite !append_assoc.
- change (String.concat "/" ((a :: b :: l) ++ [x ++ "/"]))
    with (a ++ "/" ++ String.concat "/" ((b :: l) ++ [x ++ "/"])).
  change (String.concat "/" ((a :: b :: l) ++ [x]))
    with (a ++ "/" ++ String.concat "/" ((b :: l) ++ [x])).
  now rewrite IH, !append_assoc.
Qed.

Lemma joinedPath_slash (ancs : list (string * ManifestRoute)) (own : string) :
joinedPath ancs (own ++ "/") = joinedPath ancs own ++ "/".
Proof. unfold joinedPath, segments. apply concat_last_slash. Qed.

(** For a route with a non-empty path the segment it adds as a parent
  is its own segment. *)
Lemma parentPathOf_ownPath (p : ManifestRoute) (own : string) :
ownPath p = Some own -> truthy own = true -> parentPathOf p = own.
Proof.
unfold ownPath, parentPathOf. destruct (path p) as [s|].
- destruct (truthy s); [now intros H; injection H|].
  destruct (index p) as [[|]|]; try discriminate.
  intros H. injection H as <-. discriminate.
- destruct (index p) as [[|]|]; try discriminate.
  intros H. injection H as <-. discriminate.
Qed.

Lemma static_result (fuel : nat) (ctx : RemixContext) (id : string)
  (e : ManifestRoute) (own : string) (ancs : list (string * ManifestRoute)) :
assoc id (manifestRoutes ctx) = Some e ->
ownPath e = Some own ->
(id =? "root") = false ->
ancestorsOf fuel ctx (parentId e) = Some ancs ->
forallb (modulePresent ctx) ancs = true ->
existsb (ancestorOptedOut ctx) ancs = false ->
includes ":" (joinedPath ancs own) = false ->
defaultGetSitemapHandle fuel ctx id
= (Normal (JObj [("route",
                  JStr (removeTrailingSlash (joinedPath ancs own)))]), []).
Proof.
intros He Hown Hid Hanc Hpres Hopt Hcolon.
unfold defaultGetSitemapHandle. rewrite He, Hown.
rewrite (Resolver.walkParents_chain _ _ _ _ Hanc).
rewrite (Resolver.walkChain_static _ _ _ Hpres Hopt).
now rewrite Hcolon, Hid.
Qed.

End IndexMore.

(* ================================================================== *)
(** ** Further properties: the schemas and the collector *)
(* ================================================================== *)

Module SchemaMore.

Lemma parseChangeFreq_name (c : ChangeFreq) :
parseChangeFreq (JStr (changeFreqName c)) = Some c.
Proof. now destruct c. Qed.

Lemma parsePriority_tenths (p : Priority) :
parsePriority (JNum (priorityTenths p)) = Some p.
Proof. now destruct p. Qed.

Lemma safeParse_entryObject (e : SitemapEntry) :
SitemapEntrySchema_safeParse (entryObject e) = Some e.
Proof.
destruct e as [r l c p].
destruct l as [| |d], c as [| |c], p as [| |p];
  unfold SitemapEntrySchema_safeParse, entryObject, entryProps, parseOptional;
  cbn [route lastmod changefreq priority optProp app assoc
       String.eqb Ascii.eqb Bool.eqb parseDate option_map];
  rewrite ?parseChangeFreq_name, ?parsePriority_tenths; reflexivity.
Qed.

Lemma parseAll_entryObjects (es : list SitemapEntry) :
parseAll (map entryObject es) = Some es.
Proof.
induction es as [|e es IH]; [reflexivity|].
cbn [map parseAll]. now rewrite safeParse_entryObject, IH.
Qed.

Lemma parsePriority_out_of_range (k : Z) :
(k < 0 \/ 10 < k)%Z -> parsePriority (JNum k) = None.
Proof.
intros H. cbn [parsePriority allPriorities find priorityTenths].
repeat match goal with
       | |- context [(?a =? k)%Z] =>
           destruct (Z.eqb_spec a k); [exfalso; lia|]
       end.
reflexivity.
Qed.

Lemma parsePriority_in_range (k : Z) :
(0 <= k <= 10)%Z -> exists p, parsePriority (JNum k) = Some p
                              /\ priorityTenths p = k.
Proof.
intros H.
assert (k = 0 \/ k = 1 \/ k = 2 \/ k = 3 \/ k = 4 \/ k = 5 \/ k = 6
        \/ k = 7 \/ k = 8 \/ k = 9 \/ k = 10)%Z as Hk by lia.
repeat (destruct Hk as [->|Hk]; [eexists; split; reflexivity|]).
subst k. eexists; split; reflexivity.
Qed.

(** The callback of a route that declares no entry function, seen
  through what the default resolver returned. *)
Lemma collectRoute_default (fuel : nat) (ctx : RemixContext) (id : string)
  (m : RouteModule) :
declaresEntryFunction (handle m) = false ->
collectRoute fuel ctx id m = (Normal None, [])
\/ (exists log, defaultGetSitemapHandle fuel ctx id = (Thrown, log)
                /\ collectRoute fuel ctx id m = (Thrown, log))
\/ (exists log, defaultGetSitemapHandle fuel ctx id = (OutOfFuel, log)
                /\ collectRoute fuel ctx id m = (OutOfFuel, log))
\/ (exists v log,
       defaultGetSitemapHandle fuel ctx id = (Normal v, log)
       /\ collectRoute fuel ctx id m
          = (match v with
             | JNull => Normal None
             | _ => match SitemapEntriesSchema_safeParse (toArray v) with
                    | Some entries => Normal entries
                    | None => Normal None
                    end
             end,
             match v with
             | JNull => log
             | _ => match SitemapEntriesSchema_safeParse (toArray v) with
                    | Some _ => log
                    | None => (log ++ [WarnInvalidEntries id])%list
                    end
             end)).
Proof.
intros Hf. unfold collectRoute.
destruct (id =? "root")%string; [now left|].
destruct (handle m) as [|[| |f|]|]; try discriminate Hf;
  cbn [HandleSchema_safeParse]; try (now left).
- cbn [negb andb]. destruct (negb (hasDefault m)); [now left|].
  destruct (defaultGetSitemapHandle fuel ctx id) as [[v| |] log].
  + right; right; right. exists v, log. split; [reflexivity|].
    destruct v; try reflexivity;
      now destruct (SitemapEntriesSchema_safeParse _).
  + right; left. now exists log.
  + right; right; left. now exists log.
- cbn [negb andb]. destruct (negb (hasDefault m)); [now left|].
  destruct (defaultGetSitemapHandle fuel ctx id) as [[v| |] log].
  + right; right; right. exists v, log. split; [reflexivity|].
    destruct v; try reflexivity;
      now destruct (SitemapEntriesSchema_safeParse _).
  + right; left. now exists log.
  + right; right; left. now exists log.
Qed.

Lemma defaultGetSitemapHandle_log (fuel : nat) (ctx : RemixContext) (id : string) :
forall w, In w (snd (defaultGetSitemapHandle fuel ctx id)) ->
          w = WarnNoManifestEntry id.
Proof.
intros w. unfold defaultGetSitemapHandle.
destruct (assoc id (manifestRoutes ctx)) as [e|];
  [|cbn; intros [H|[]]; now symmetry].
destruct (ownPath e) as [own|]; [|intros []].
destruct (walkParents fuel ctx (parentId e) (lookupParent ctx (parentId e)) own)
  as [[p|]| |]; try (intros []).
destruct (includes ":" p); [intros []|].
destruct (id =? "root")%string; intros [].
Qed.

Lemma collectAll_isNormal (fuel : nat) (ctx : RemixContext)
  (mods : list (string * RouteModule)) :
isNormal (fst (collectAll fuel ctx mods))
= forallb (fun jm => isNormal (fst (collectRoute fuel ctx (fst jm) (snd jm))))
    mods.
Proof.
induction mods as [|[j mj] mods IH]; [reflexivity|].
cbn [collectAll forallb fst snd].
destruct (collectRoute fuel ctx j mj) as [r log1].
destruct (collectAll fuel ctx mods) as [rs log2].
cbn [fst] in *. rewrite <- IH. now destruct r, rs.
Qed.

Lemma collectAll_app (fuel : nat) (ctx : RemixContext)
  (l1 l2 : list (string * RouteModule)) (es1 es2 : list SitemapEntry) :
fst (collectAll fuel ctx l1) = Normal es1 ->
fst (collectAll fuel ctx l2) = Normal es2 ->
collectAll fuel ctx (l1 ++ l2)
= (Normal (es1 ++ es2)%list,
   (snd (collectAll fuel ctx l1) ++ snd (collectAll fuel ctx l2))%list).
Proof.
revert es1. induction l1 as [|[j mj] l1 IH]; intros es1 H1 H2.
- cbn in H1. injection H1 as <-. cbn [app collectAll snd].
  destruct (collectAll fuel ctx l2) as [r log]. cbn in H2. now subst r.
- cbn [app collectAll] in *.
  destruct (collectRoute fuel ctx j mj) as [r log1].
  destruct (collectAll fuel ctx l1) as [rs log2].
  cbn [fst snd] in *.
  destruct r as [entries| |], rs as [more| |]; try discriminate H1.
  injection H1 as <-.
  rewrite (IH more eq_refl H2). cbn [snd].
  now rewrite <- !app_assoc.
Qed.

End SchemaMore.

Module ValidationMore.

Lemma parseAll_none (elems : list jsval) :
parseAll elems = None <->
exists v, In v elems /\ SitemapEntrySchema_safeParse v = None.
Proof.
induction elems as [|v rest IH]; cbn [parseAll].
- split; [discriminate | intros (v & [] & _)].
- destruct (SitemapEntrySchema_safeParse v) as [e|] eqn:P.
  + destruct (parseAll rest) as [es|].
    * split; [discriminate|]. intros (x & [<-|Hx] & Hn); [congruence|].
      assert (None = None :> option (list SitemapEntry)) as H by reflexivity.
      destruct IH as [_ IH]. discriminate IH. now exists x.
    * split; [|reflexivity]. intros _. destruct IH as [IH _].
      destruct (IH eq_refl) as (x & Hx & Hn). exists x. split; [now right|exact Hn].
  + split; [|reflexivity]. intros _. exists v. split; [now left|exact P].
Qed.

Lemma parseAll_some (elems : list jsval) :
forall es, parseAll elems = Some es ->
           map SitemapEntrySchema_safeParse elems = map Some es.
Proof.
induction elems as [|v rest IH]; intros es; cbn [parseAll].
- intros H. now injection H as <-.
- destruct (SitemapEntrySchema_safeParse v) as [e|] eqn:P; [|discriminate].
  destruct (parseAll rest) as [es'|]; [|discriminate].
  intros H. injection H as <-. cbn [map]. now rewrite P, (IH es' eq_refl).
Qed.

End ValidationMore.

(* ================================================================== *)
(** ** Further properties: the de-duplication loop and isEqual *)
(* ================================================================== *)

Module DedupMore.

Lemma find_app_l {A : Type} (f : A -> bool) (l1 l2 : list A) (x : A) :
find f l1 = Some x -> find f (l1 ++ l2) = Some x.
Proof.
induction l1 as [|a l1 IH]; cbn [find app]; [discriminate|].
destruct (f a); auto.
Qed.

Lemma find_app_r {A : Type} (f : A -> bool) (l1 l2 : list A) :
find f l1 = None -> find f (l1 ++ l2) = find f l2.
Proof.
induction l1 as [|a l1 IH]; cbn [find app]; [reflexivity|].
destruct (f a); [discriminate | auto].
Qed.

Lemma find_none_iff {A : Type} (f : A -> bool) (l : list A) :
(forall x, In x l -> f x = false) -> find f l = None.
Proof.
induction l as [|a l IH]; intros H; [reflexivity|].
cbn [find]. rewrite (H a (or_introl eq_refl)).
apply IH. intros x Hx. apply H. now right.
Qed.

Lemma route_not_accepted (es : list SitemapEntry) (a : SitemapEntry) :
find (fun e => (route e =? route a)%string) es = None ->
~ In (route a) (map route es).
Proof.
intros F Hin. apply in_map_iff in Hin as (x & Hx & Hin).
pose proof (find_none _ _ F x Hin) as H. cbn in H.
rewrite Hx, String.eqb_refl in H. discriminate.
Qed.

(** One turn of the loop keeps the invariant. *)
Lemma dedupStep_invariant (done es : list SitemapEntry) (log : list Warning)
  (a : SitemapEntry) :
dedupInvariant done es log ->
exists es' log',
  dedupStep (Normal (es, log)) a = Normal (es', log')
  /\ dedupInvariant (done ++ [a]) es' log'.
Proof.
intros (Hnd & Hfirst & Hcov & Hlen & Hwarn).
rewrite Dedup.dedupStep_normal.
destruct (find (fun e => (route e =? route a)%string) es) as [ex|] eqn:F.
- pose proof (find_some _ _ F) as [Hex Hr]. apply String.eqb_eq in Hr.
  assert (Hcov' : forall x, In x (done ++ [a]) -> In (route x) (map route es)).
  { intros x Hx. apply in_app_or in Hx as [Hx|[<-|[]]]; [now apply Hcov|].
    rewrite <- Hr. now apply in_map. }
  assert (Hfirst' : forall e, In e es ->
            find (fun x => (route x =? route e)%string) (done ++ [a]) = Some e).
  { intros e He. apply find_app_l. now apply Hfirst. }
  destruct (entriesAgree ex a) eqn:Ag.
  + exists es, log. split; [reflexivity|].
    repeat split; auto.
    * rewrite length_app. cbn. lia.
    * intros w Hw. destruct (Hwarn w Hw) as (entry & ex' & -> & H1 & H2 & H3 & H4).
      exists entry, ex'. repeat split; auto. apply in_or_app. now left.
  + exists es, (log ++ [WarnDuplicateRoute (route a) a ex])%list.
    split; [reflexivity|].
    repeat split; auto.
    * rewrite !length_app. cbn. lia.
    * intros w Hw. apply in_app_or in Hw as [Hw|[<-|[]]].
      -- destruct (Hwarn w Hw) as (entry & ex' & -> & H1 & H2 & H3 & H4).
         exists entry, ex'. repeat split; auto. apply in_or_app. now left.
      -- exists a, ex. repeat split; auto.
         apply in_or_app. right. now left.
- pose proof (route_not_accepted es a F) as Hnew.
  exists (es ++ [a])%list, log. split; [reflexivity|].
  repeat split.
  + rewrite map_app. cbn [map].
    apply NoDup_app; [exact Hnd | repeat constructor; intros [] |].
    intros r Hr [<-|[]]. now apply Hnew.
  + intros e He. apply in_app_or in He as [He|[<-|[]]].
    * apply find_app_l. now apply Hfirst.
    * rewrite find_app_r.
      -- cbn [find]. now rewrite String.eqb_refl.
      -- apply find_none_iff. intros x Hx.
         destruct (String.eqb_spec (route x) (route a)) as [E|]; [|reflexivity].
         exfalso. apply Hnew. rewrite <- E. now apply Hcov.
  + intros x Hx. rewrite map_app. apply in_or_app.
    apply in_app_or in Hx as [Hx|[<-|[]]]; [left; now apply Hcov|].
    right. now left.
  + rewrite !length_app. cbn. lia.
  + intros w Hw. destruct (Hwarn w Hw) as (entry & ex' & -> & H1 & H2 & H3 & H4).
    exists entry, ex'. repeat split; auto; apply in_or_app; now left.
Qed.

Lemma fold_invariant (todo : list SitemapEntry) :
forall (done es : list SitemapEntry) (log : list Warning),
  dedupInvariant done es log ->
  exists es' log',
    fold_left dedupStep todo (Normal (es, log)) = Normal (es', log')
    /\ dedupInvariant (done ++ todo) es' log'.
Proof.
induction todo as [|a todo IH]; intros done es log Hinv.
- exists es, log. rewrite app_nil_r. now split.
- destruct (dedupStep_invariant a Hinv) as (es1 & log1 & Hs & Hinv1).
  destruct (IH _ _ _ Hinv1) as (es' & log' & Hf & Hinv').
  exists es', log'. cbn [fold_left]. rewrite Hs.
  split; [exact Hf|]. now rewrite <- app_assoc in Hinv'.
Qed.

Lemma dedup_invariant (l es : list SitemapEntry) (log : list Warning) :
dedup l = Normal (es, log) -> dedupInvariant l es log.
Proof.
intros H.
assert (Hinit : dedupInvariant [] [] []).
{ repeat split; try (intros ? []). constructor. cbn. lia. }
destruct (fold_invariant l Hinit) as (es' & log' & Hf & Hinv).
unfold dedup in H. rewrite Hf in H. injection H as <- <-. exact Hinv.
Qed.

Lemma distinctRoutes_find (es todo : list SitemapEntry) (a : SitemapEntry) :
distinctRoutes (es ++ a :: todo) = true ->
find (fun e => (route e =? route a)%string) es = None.
Proof.
induction es as [|e es IH]; [reflexivity|].
cbn [app distinctRoutes find]. intros H.
apply andb_true_iff in H as [H1 H2]. apply negb_true_iff in H1.
destruct (String.eqb_spec (route e) (route a)) as [E|]; [|now apply IH].
exfalso. assert (existsb (fun x => (route x =? route e)%string)
                   (es ++ a :: todo) = true) as Hc.
{ apply existsb_exists. exists a. split.
  - apply in_or_app. right. now left.
  - rewrite E. apply String.eqb_refl. }
congruence.
Qed.

(** Entries with distinct routes are all accepted, in order. *)
Lemma fold_distinct (todo : list SitemapEntry) :
forall (es : list SitemapEntry) (log : list Warning),
  distinctRoutes (es ++ todo) = true ->
  fold_left dedupStep todo (Normal (es, log)) = Normal ((es ++ todo)%list, log).
Proof.
induction todo as [|a todo IH]; intros es log H.
- now rewrite app_nil_r.
- cbn [fold_left]. rewrite Dedup.dedupStep_normal.
  rewrite (distinctRoutes_find es todo a H).
  rewrite IH; rewrite <- app_assoc; [reflexivity | exact H].
Qed.

Lemma NoDup_distinctRoutes (es : list SitemapEntry) :
NoDup (map route es) -> distinctRoutes es = true.
Proof.
induction es as [|e es IH]; [reflexivity|].
cbn [map distinctRoutes]. intros H. apply NoDup_cons_iff in H as [H1 H2].
rewrite (IH H2), andb_true_r. apply negb_true_iff.
destruct (existsb _ es) eqn:E; [|reflexivity].
apply existsb_exists in E as (x & Hx & Hr). apply String.eqb_eq in Hr.
exfalso. apply H1. rewrite <- Hr. now apply in_map.
Qed.

End DedupMore.

Module IsEqualMore.

Lemma strictEq_refl (v : jsval) : typeofObject v = false -> strictEq v v = true.
Proof.
destruct v; cbn; try discriminate; intros _; auto.
- apply Bool.eqb_reflx.
- apply Z.eqb_refl.
- apply String.eqb_refl.
Qed.

Lemma assoc_distinct (props : list (string * jsval)) (k : string) (v : jsval) :
distinctKeys props = true -> In (k, v) props -> assoc k props = Some v.
Proof.
induction props as [|[k' v'] props IH]; intros Hd Hin; [destruct Hin|].
cbn [distinctKeys] in Hd. apply andb_true_iff in Hd as [H1 H2].
apply negb_true_iff in H1. cbn [assoc].
destruct Hin as [E|Hin].
- injection E as -> ->. now rewrite String.eqb_refl.
- destruct (String.eqb_spec k' k) as [->|]; [|now apply IH].
  exfalso. assert (existsb (fun kv => (fst kv =? k)%string) props = true) as Hc.
  { apply existsb_exists. exists (k, v). split; [exact Hin|].
    apply String.eqb_refl. }
  congruence.
Qed.

(** The loop over properties that are all found, with the same
  primitive value, in the second object. *)
Lemma isEqualProps_found (recur : jsval -> jsval -> completion bool)
  (props2 : list (string * jsval)) :
distinctKeys props2 = true ->
forall props1 : list (string * jsval),
  (forall kv, In kv props1 -> In kv props2 /\ typeofObject (snd kv) = false) ->
  isEqualProps recur (JObj props2) props1 = Normal true.
Proof.
intros Hd. induction props1 as [|[k v] props1 IH]; intros H; [reflexivity|].
cbn [isEqualProps]. destruct (H (k, v) (or_introl eq_refl)) as [Hin Hp].
cbn [snd] in Hp. unfold getProp. cbn [ownProps].
rewrite (assoc_distinct props2 k v Hd Hin).
unfold isEqualStep. rewrite Hp. cbn [andb].
rewrite (strictEq_refl v Hp). cbn [negb].
apply IH. intros kv Hkv. apply H. now right.
Qed.

Lemma isEqual_null (v1 v2 : jsval) :
v1 = JNull \/ v2 = JNull -> isEqual v1 v2 = Thrown.
Proof.
intros [->| ->]; [reflexivity|].
destruct v1; cbn; try reflexivity.
Qed.

Ltac split_agree H :=
repeat match type of H with
       | (_ && _)%bool = true =>
           let H' := fresh "Hc" in
           apply andb_true_iff in H as [H H']
       end.

End IsEqualMore.

(* ================================================================== *)
(** ** Further properties: the serialiser *)
(* ================================================================== *)

Module SerializerMore.

Import StringFacts.

Lemma join_empty_cons (b : string) (blocks : list string) :
join_empty (b :: blocks) = b ++ join_empty blocks.
Proof.
unfold join_empty. destruct blocks as [|c blocks].
- cbn. now rewrite append_nil_r.
- reflexivity.
Qed.

Lemma join_empty_app (l1 l2 : list string) :
join_empty (l1 ++ l2) = join_empty l1 ++ join_empty l2.
Proof.
induction l1 as [|b l1 IH]; [reflexivity|].
cbn [app]. now rewrite !join_empty_cons, IH, append_assoc.
Qed.

(** [trim] takes the line break in front of the XML declaration and the
  line break and tab behind [</urlset>]. *)
Lemma trim_document (body : string) :
trim (nl ++ "<?xml" ++ body ++ "</urlset>" ++ nl ++ tab)
= "<?xml" ++ body ++ "</urlset>".
Proof.
unfold trim.
change (trimStart (nl ++ "<?xml" ++ body ++ "</urlset>" ++ nl ++ tab))
  with ("<?xml" ++ body ++ "</urlset>" ++ nl ++ tab).
rewrite <- (append_assoc "<?xml" body), Serializer.trimEnd_app by discriminate.
now rewrite append_assoc.
Qed.

Lemma document_layout (blocks : list string) :
document blocks = prologue ++ join_empty blocks ++ nl ++ "</urlset>".
Proof.
set (body := " version=" ++ dq ++ "1.0" ++ dq ++ " encoding=" ++ dq
             ++ "UTF-8" ++ dq ++ "?>" ++ nl
             ++ "<urlset" ++ nl
             ++ tab ++ "xmlns=" ++ dq
             ++ "http://www.sitemaps.org/schemas/sitemap/0.9" ++ dq ++ nl
             ++ tab ++ "xmlns:xsi=" ++ dq
             ++ "http://www.w3.org/2001/XMLSchema-instance" ++ dq ++ nl
             ++ tab ++ "xsi:schemaLocation=" ++ dq
             ++ "http://www.sitemaps.org/schemas/sitemap/0.9 http://www.sitemaps.org/schemas/sitemap/0.9/sitemap.xsd"
             ++ dq ++ nl
             ++ ">" ++ nl
             ++ tab ++ join_empty blocks ++ nl).
transitivity (trim (nl ++ "<?xml" ++ body ++ "</urlset>" ++ nl ++ tab)).
- unfold document, body. f_equal. f_equal.
  change "<?xml version=" with ("<?xml" ++ " version=").
  rewrite !append_assoc. reflexivity.
- rewrite trim_document. unfold body, prologue.
  change "<?xml version=" with ("<?xml" ++ " version=").
  rewrite !append_assoc. reflexivity.
Qed.

Lemma filter_only_root (mods : list (string * RouteModule)) :
forallb (fun jm => (fst jm =? "root")%string) mods = true ->
filter (fun jm => negb (fst jm =? "root")%string) mods = [].
Proof.
induction mods as [|[j mj] mods IH]; [reflexivity|].
cbn [forallb filter fst]. intros H. apply andb_true_iff in H as [H1 H2].
rewrite H1. cbn [negb]. now apply IH.
Qed.

End SerializerMore.

(* ================================================================== *)
(** ** What is written for the entries of a route *)
(* ================================================================== *)

Module Written.

Import StringFacts.

Lemma prefix_app (n b : string) : String.prefix n (n ++ b) = true.
Proof.
induction n as [|c n IH]; [now destruct b|].
cbn [append String.prefix]. now destruct (ascii_dec c c).
Qed.

Lemma prefix_app_l (n : string) :
forall a b : string, String.prefix n a = true -> String.prefix n (a ++ b) = true.
Proof.
induction n as [|c n IH]; intros a b H; [now destruct (a ++ b)|].
destruct a as [|d a]; [discriminate|].
cbn [append String.prefix] in *.
destruct (ascii_dec c d); [now apply IH | discriminate].
Qed.

Lemma includes_unfold (n s : string) :
includes n s
= (String.prefix n s
   || match s with EmptyString => false | String _ r => includes n r end)%bool.
Proof. now destruct s. Qed.

Lemma includes_app_r (n a b : string) :
includes n b = true -> includes n (a ++ b) = true.
Proof.
intros H. induction a as [|c a IH]; [exact H|].
cbn [append]. rewrite includes_unfold, IH. apply orb_true_r.
Qed.

Lemma includes_app_l (n a b : string) :
includes n a = true -> includes n (a ++ b) = true.
Proof.
induction a as [|c a IH]; intros H.
- rewrite includes_unfold, orb_false_r in H.
  rewrite includes_unfold, (prefix_app_l n "" b H). reflexivity.
- rewrite includes_unfold in H. apply orb_true_iff in H as [H|H].
  + rewrite includes_unfold, (prefix_app_l n (String c a) b H). reflexivity.
  + cbn [append]. rewrite includes_unfold, (IH H). apply orb_true_r.
Qed.

Lemma includes_app_self (n b : string) : includes n (n ++ b) = true.
Proof. now rewrite includes_unfold, prefix_app. Qed.

(** What one of the joined blocks holds, the joined text holds. *)
Lemma includes_join (n : string) (blocks : list string) (x : string) :
In x blocks -> includes n x = true -> includes n (join_empty blocks) = true.
Proof.
induction blocks as [|b blocks IH]; intros Hin Hx; [destruct Hin|].
rewrite SerializerMore.join_empty_cons. destruct Hin as [->|Hin].
- now apply includes_app_l.
- apply includes_app_r. now apply IH.
Qed.

(** The block of an entry holds its [<loc>] element. *)
Lemma loc_in_block (toISOString : Z -> string) (domainUrl : string)
  (e : SitemapEntry) :
includes ("<loc>" ++ domainUrl ++ route e ++ "</loc>")
  (getEntry toISOString domainUrl e) = true.
Proof.
rewrite Serializer.getEntry_block.
do 3 apply includes_app_r.
rewrite <- (append_assoc (route e) "</loc>"),
        <- (append_assoc domainUrl (route e ++ "</loc>")),
        <- (append_assoc "<loc>" (domainUrl ++ route e ++ "</loc>")).
apply includes_app_self.
Qed.

(** The document holds the [<loc>] element of every entry it is made
  from. *)
Lemma loc_in_document (toISOString : Z -> string) (domainUrl : string)
  (entries : list SitemapEntry) (e : SitemapEntry) :
In e entries ->
includes ("<loc>" ++ domainUrl ++ route e ++ "</loc>")
  (prologue
   ++ join_empty (map (getEntry toISOString domainUrl) entries)
   ++ nl ++ "</urlset>") = true.
Proof.
intros Hin. apply includes_app_r, includes_app_l.
apply (includes_join _ _ (getEntry toISOString domainUrl e)).
- now apply in_map.
- apply loc_in_block.
Qed.

(** The callback of a route whose entry function returns something the
  schema accepts gives the parsed entries and prints nothing. *)
Lemma collectRoute_valid (fuel : nat) (ctx : RemixContext) (id : string)
  (m : RouteModule) (f : GetSitemapEntriesFunction) (raw : jsval)
  (es : list SitemapEntry) :
(id =? "root") = false ->
handle m = HandleObject (PropFunction f) ->
f id = Normal raw ->
SitemapEntriesSchema_safeParse (toArray raw) = Some (Some es) ->
collectRoute fuel ctx id m = (Normal (Some es), []).
Proof.
intros Hid Hh Hf Hp. unfold collectRoute. rewrite Hid, Hh.
cbn [HandleSchema_safeParse negb andb]. rewrite Hf.
destruct raw; try discriminate Hp; now rewrite Hp.
Qed.

(** The callback of a page route without a declared function whose path
  the default resolver resolves gives the one entry of that path. *)
Lemma collectRoute_resolved (fuel : nat) (ctx : RemixContext) (id : string)
  (m : RouteModule) (r : string) (log : list Warning) :
(id =? "root") = false ->
hasDefault m = true ->
HandleSchema_safeParse (handle m) = Some PropUndefined ->
defaultGetSitemapHandle fuel ctx id
= (Normal (JObj [("route", JStr r)]), log) ->
collectRoute fuel ctx id m
= (Normal (Some [mkSitemapEntry r KeyAbsent KeyAbsent KeyAbsent]), log).
Proof.
intros Hid Hd Hh Hr. unfold collectRoute.
now rewrite Hid, Hh, Hd, Hr.
Qed.

End Written.

(** C3.  A route whose entry function returns something that fails the
    schema gives no entry and one warning naming the route, and the
    collection is the one of the other routes.  The generation goes on:
    when the callbacks of the other routes end normally, the document is
    produced (prologue, blocks of the accepted entries, closing tag) and
    the warning is among those printed.  Every entry that the entry
    function of another route returns and the schema accepts, and the
    route that the default resolver finds for another page route without
    an entry function, is represented among the accepted entries, and
    its [<loc>] element, origin followed by route, is in the document. *)
Theorem invalid_entries_are_dropped_per_route :
  forall (Request : Type) (getDomainUrl : Request -> string)
         (toISOString : Z -> string) (fuel : nat) (request : Request)
         (ctx : RemixContext) (pre post : list (string * RouteModule))
         (id : string) (m : RouteModule) (f : GetSitemapEntriesFunction)
         (raw : jsval),
    routeModules ctx = (pre ++ (id, m) :: post)%list ->
    (id =? "root") = false ->
    handle m = HandleObject (PropFunction f) ->
    f id = Normal raw ->
    strictEq raw JNull = false ->
    SitemapEntriesSchema_safeParse (toArray raw) = None ->
    forallb (fun jm => isNormal (fst (collectRoute fuel ctx (fst jm) (snd jm))))
      (pre ++ post) = true ->
    collectRoute fuel ctx id m = (Normal None, [WarnInvalidEntries id])
    /\ fst (collectAll fuel ctx (routeModules ctx))
       = fst (collectAll fuel ctx (pre ++ post))
    /\ exists (xml : string) (sitemapEntries : list SitemapEntry)
              (log : list Warning),
        getSitemapXml getDomainUrl toISOString fuel request ctx
        = (Normal xml, log)
        /\ xml = prologue
                 ++ join_empty (map (getEntry toISOString (getDomainUrl request))
                                  sitemapEntries)
                 ++ nl ++ "</urlset>"
        /\ In (WarnInvalidEntries id) log
        /\ (forall j mj g rawj es e,
               In (j, mj) (pre ++ post) ->
               (j =? "root") = false ->
               handle mj = HandleObject (PropFunction g) ->
               g j = Normal rawj ->
               SitemapEntriesSchema_safeParse (toArray rawj) = Some (Some es) ->
               In e es ->
               (exists e', In e' sitemapEntries /\ route e' = route e)
               /\ includes ("<loc>" ++ getDomainUrl request ++ route e ++ "</loc>")
                    xml = true)
        /\ (forall j mj r l,
               In (j, mj) (pre ++ post) ->
               (j =? "root") = false ->
               hasDefault mj = true ->
               HandleSchema_safeParse (handle mj) = Some PropUndefined ->
               defaultGetSitemapHandle fuel ctx j
               = (Normal (JObj [("route", JStr r)]), l) ->
               (exists e', In e' sitemapEntries /\ route e' = r)
               /\ includes ("<loc>" ++ getDomainUrl request ++ r ++ "</loc>")
                    xml = true).
Proof.
  intros Request getDomainUrl toISOString fuel request ctx pre post id m f raw
         Hmods Hid Hh Hf Hn Hp Hothers.
  pose proof (Collector.collectRoute_invalid fuel ctx id m Hid Hh Hf Hn Hp) as Hc.
  split; [exact Hc|].
  destruct (Collector.collectAll_skip fuel ctx id m pre post Hc) as [Hfst Hlog].
  split; [now rewrite Hmods|].
  destruct (Collector.collectAll_normal fuel ctx (pre ++ post) Hothers)
    as (rawEntries & Hraw & Hcov).
  destruct (Dedup.dedup_total rawEntries) as (ses & log2 & Hd & Hrep).
  assert (Hwritten : forall e, In e rawEntries ->
            (exists e', In e' ses /\ route e' = route e)
            /\ includes ("<loc>" ++ getDomainUrl request ++ route e ++ "</loc>")
                 (prologue
                  ++ join_empty (map (getEntry toISOString (getDomainUrl request))
                                   ses)
                  ++ nl ++ "</urlset>") = true).
  { intros e He. destruct (Hrep e He) as (e' & He' & Hr).
    split; [now exists e'|].
    rewrite <- Hr. now apply Written.loc_in_document. }
  unfold getSitemapXml. rewrite Hmods.
  destruct (collectAll fuel ctx (pre ++ (id, m) :: post)) as [r log1] eqn:C.
  cbn [fst snd] in Hfst, Hlog. rewrite Hraw in Hfst. subst r. rewrite Hd.
  exists (prologue
          ++ join_empty (map (getEntry toISOString (getDomainUrl request)) ses)
          ++ nl ++ "</urlset>"), ses, (log1 ++ log2)%list.
  split; [now rewrite SerializerMore.document_layout|].
  split; [reflexivity|].
  split; [apply in_or_app; left; apply Hlog; now left|].
  split.
  - intros j mj g rawj es e Hin Hj Hhj Hg Hpj He.
    apply Hwritten.
    apply (Hcov j mj es [] e Hin); [|exact He].
    now apply (Written.collectRoute_valid fuel ctx j mj Hj Hhj Hg Hpj).
  - intros j mj r l Hin Hj Hdef Hhj Hres.
    apply (Hwritten (mkSitemapEntry r KeyAbsent KeyAbsent KeyAbsent)).
    apply (Hcov j mj [mkSitemapEntry r KeyAbsent KeyAbsent KeyAbsent] l);
      [exact Hin | | now left].
    now apply Written.collectRoute_resolved.
Qed.

Lemma invalid_entries_are_dropped_per_route_witness :
  collectRoute 1 Examples.mixedCtx "routes/bad" Examples.badModule
  = (Normal None, [WarnInvalidEntries "routes/bad"])
  /\ exists (xml : string) (log : list Warning),
      getSitemapXml (fun _ : unit => "https://example.com")
        (fun _ => "2024-01-01T00:00:00.000Z") 1 tt Examples.mixedCtx
      = (Normal xml, log)
      /\ In (WarnInvalidEntries "routes/bad") log
      /\ includes "<loc>https://example.com/about</loc>" xml = true.
Proof.
  destruct (@invalid_entries_are_dropped_per_route unit
              (fun _ : unit => "https://example.com")
              (fun _ => "2024-01-01T00:00:00.000Z") 1 tt Examples.mixedCtx
              [("root", Examples.plainModule)]
              [("routes/about", Examples.aboutModule)]
              "routes/bad" Examples.badModule
              (fun _ => Normal (JObj [("route", JStr "/bad");
                                      ("priority", JNum 15)]))
              (JObj [("route", JStr "/bad"); ("priority", JNum 15)])
              eq_refl eq_refl eq_refl eq_refl eq_refl eq_refl eq_refl)
    as (Hroute & _ & xml & ses & log & Hrun & _ & Hlog & Hdeclared & _).
  split; [exact Hroute|].
  exists xml, log. split; [exact Hrun|]. split; [exact Hlog|].
  exact (proj2 (Hdeclared "routes/about" Examples.aboutModule
                  (fun _ => Normal (JObj [("route", JStr "/about")]))
                  (JObj [("route", JStr "/about")])
                  [mkSitemapEntry "/about" KeyAbsent KeyAbsent KeyAbsent]
                  (mkSitemapEntry "/about" KeyAbsent KeyAbsent KeyAbsent)
                  (or_intror (or_introl eq_refl))
                  eq_refl eq_refl eq_refl eq_refl (or_introl eq_refl))).
Defined.

(* ================================================================== *)
(** ** Further properties of the module *)
(* ================================================================== *)

(** X1.  [removeTrailingSlash] undoes the appending of one slash, and
    takes exactly one slash from a string that ends in one; a string
    that does not end in a slash is returned as it is. *)
Theorem removeTrailingSlash_takes_one_slash :
  forall s : string,
    removeTrailingSlash (s ++ "/") = s
    /\ (if endsWith "/" s
        then s = removeTrailingSlash s ++ "/"
        else removeTrailingSlash s = s).
Proof.
  intros s. split; [apply StringFacts.removeTrailingSlash_app_slash|].
  destruct (endsWith "/" s) eqn:E.
  - unfold removeTrailingSlash. rewrite E.
    now apply StringFacts.endsWith_slash_split.
  - now apply StringFacts.removeTrailingSlash_id.
Qed.

(** X2.  Whatever the context, a normal return of the default resolver
    is null or an object with the single key [route]; the route holds no
    [:], and the object passes the entries schema as one entry with no
    optional field. *)
Theorem default_resolver_result_is_valid :
  forall (fuel : nat) (ctx : RemixContext) (id : string) (v : jsval)
         (log : list Warning),
    defaultGetSitemapHandle fuel ctx id = (Normal v, log) ->
    v = JNull
    \/ exists r : string,
        v = JObj [("route", JStr r)]
        /\ includes ":" r = false
        /\ SitemapEntriesSchema_safeParse (toArray v)
           = Some (Some [mkSitemapEntry r KeyAbsent KeyAbsent KeyAbsent]).
Proof.
  intros fuel ctx id v log. unfold defaultGetSitemapHandle.
  destruct (assoc id (manifestRoutes ctx)) as [e|];
    [|intros H; injection H as <- _; now left].
  destruct (ownPath e) as [own|]; [|intros H; injection H as <- _; now left].
  destruct (walkParents fuel ctx (parentId e) (lookupParent ctx (parentId e)) own)
    as [[p|]| |]; try discriminate;
    [|intros H; injection H as <- _; now left].
  destruct (includes ":" p) eqn:C; [intros H; injection H as <- _; now left|].
  destruct (id =? "root")%string; intros H; injection H as <- _; [now left|].
  right. exists (removeTrailingSlash p). split; [reflexivity|]. split.
  - now rewrite StringFacts.includes_colon_removeTrailingSlash.
  - reflexivity.
Qed.

Lemma default_resolver_result_is_valid_witness :
  JObj [("route", JStr "/blog/posts")] = JNull
  \/ exists r : string,
      JObj [("route", JStr "/blog/posts")] = JObj [("route", JStr r)]
      /\ includes ":" r = false
      /\ SitemapEntriesSchema_safeParse
           (toArray (JObj [("route", JStr "/blog/posts")]))
         = Some (Some [mkSitemapEntry r KeyAbsent KeyAbsent KeyAbsent]).
Proof.
  exact (@default_resolver_result_is_valid 3 Examples.blogCtx
           "routes/blog.posts" (JObj [("route", JStr "/blog/posts")]) []
           eq_refl).
Defined.

(** X3.  When the parent links of the manifest form a forest (every
    route whose parent is in the manifest lies deeper than that parent),
    the walk over the parents of a route ends within as many turns as
    the route is deep: with that much fuel the resolver never runs out. *)
Theorem default_resolver_terminates_on_forest :
  forall (depth : string -> nat) (ctx : RemixContext) (fuel : nat) (id : string),
    parentsRankLower depth ctx = true ->
    depth id <= fuel ->
    fst (defaultGetSitemapHandle fuel ctx id) <> OutOfFuel.
Proof.
  intros depth ctx fuel id Hrank Hd. unfold defaultGetSitemapHandle.
  destruct (assoc id (manifestRoutes ctx)) as [e|] eqn:He; [|discriminate].
  destruct (ownPath e) as [own|]; [|discriminate].
  destruct (@ResolverMore.ranked_chain depth ctx Hrank fuel id e He Hd)
    as [ancs Hanc].
  rewrite (Resolver.walkParents_chain _ _ _ _ Hanc).
  destruct (Resolver.walkChain_cases ctx ancs own)
    as [[H1 _]|[[H1 _]|[H1 _]]]; rewrite H1; try discriminate.
  destruct (includes ":" (joinedPath ancs own)); [discriminate|].
  destruct (id =? "root")%string; discriminate.
Qed.

Lemma default_resolver_terminates_on_forest_witness :
  fst (defaultGetSitemapHandle 2 Examples.blogCtx "routes/blog.posts")
  <> OutOfFuel.
Proof.
  exact (@default_resolver_terminates_on_forest MoreExamples.blogDepth
           Examples.blogCtx 2 "routes/blog.posts" eq_refl (le_n 2)).
Defined.

(** X4.  A route that names itself as its parent, with its module
    present and not opted out, makes the [while (parent)] loop run for
    ever: the resolver does not return, whatever the fuel. *)
Theorem default_resolver_loops_on_self_parent :
  forall (fuel : nat) (ctx : RemixContext) (id : string) (e : ManifestRoute)
         (own : string) (m : RouteModule),
    assoc id (manifestRoutes ctx) = Some e ->
    parentId e = Some id ->
    truthy id = true ->
    ownPath e = Some own ->
    assoc id (routeModules ctx) = Some m ->
    optedOut (handle m) = false ->
    defaultGetSitemapHandle fuel ctx id = (OutOfFuel, []).
Proof.
  intros fuel ctx id e own m He Hp Ht Hown Hm Ho.
  unfold defaultGetSitemapHandle. rewrite He, Hown, Hp.
  unfold lookupParent. rewrite Ht, He.
  now rewrite (@ResolverMore.walkParents_self_parent ctx id e m He Hp Ht Hm Ho).
Qed.

Lemma default_resolver_loops_on_self_parent_witness :
  defaultGetSitemapHandle 50 MoreExamples.loopCtx "routes/loop" = (OutOfFuel, []).
Proof.
  exact (@default_resolver_loops_on_self_parent 50 MoreExamples.loopCtx
           "routes/loop" MoreExamples.loopRoute "loop" Examples.plainModule
           eq_refl eq_refl eq_refl eq_refl eq_refl eq_refl).
Defined.

(** X5.  Validation gives back the entry it is handed: the object of
    every entry passes [SitemapEntrySchema] as that entry, and an array
    of such objects passes [SitemapEntriesSchema] as the same list in the
    same order. *)
Theorem schema_accepts_its_own_entries :
  forall (e : SitemapEntry) (es : list SitemapEntry),
    SitemapEntrySchema_safeParse (entryObject e) = Some e
    /\ SitemapEntriesSchema_safeParse (JArr (map entryObject es))
       = Some (Some es).
Proof.
  intros e es. split; [apply SchemaMore.safeParse_entryObject|].
  cbn [SitemapEntriesSchema_safeParse].
  now rewrite SchemaMore.parseAll_entryObjects.
Qed.

(** X6.  A number is accepted as a priority exactly when it is one of
    the tenths from [0.0] to [1.0]; an object whose priority is a number
    below [0.0] or above [1.0] is rejected whatever its other keys. *)
Theorem priority_is_bounded :
  forall k : Z,
    (parsePriority (JNum k) = None <-> (k < 0 \/ 10 < k)%Z)
    /\ (forall props : list (string * jsval),
           assoc "priority" props = Some (JNum k) ->
           (k < 0 \/ 10 < k)%Z ->
           SitemapEntrySchema_safeParse (JObj props) = None).
Proof.
  intros k. split; [split|].
  - intros H. destruct (Z_lt_dec k 0) as [|Hl]; [now left|].
    destruct (Z_lt_dec 10 k) as [|Hu]; [now right|].
    destruct (@SchemaMore.parsePriority_in_range k ltac:(lia)) as (p & Hp & _).
    congruence.
  - apply SchemaMore.parsePriority_out_of_range.
  - intros props Hp Hk. cbn [SitemapEntrySchema_safeParse].
    destruct (assoc "route" props) as [[]|]; try reflexivity.
    unfold parseOptional at 3. rewrite Hp.
    rewrite (SchemaMore.parsePriority_out_of_range Hk). cbn [option_map].
    now destruct (parseOptional parseDate "lastmod" props),
                 (parseOptional parseChangeFreq "changefreq" props).
Qed.

Lemma priority_is_bounded_witness :
  SitemapEntrySchema_safeParse
    (JObj [("route", JStr "/bad"); ("priority", JNum 15)]) = None.
Proof.
  exact (proj2 (priority_is_bounded 15)
           [("route", JStr "/bad"); ("priority", JNum 15)] eq_refl
           (or_intror eq_refl)).
Defined.

(** X7.  A string is accepted as a changefreq exactly when it is,
    letter for letter, one of the seven names of the enumeration. *)
Theorem changefreq_is_one_of_the_names :
  forall (s : string) (c : ChangeFreq),
    parseChangeFreq (JStr s) = Some c <-> s = changeFreqName c.
Proof.
  intros s c. split.
  - cbn [parseChangeFreq]. intros H. apply find_some in H as [_ H].
    apply String.eqb_eq in H. now symmetry.
  - intros ->. apply SchemaMore.parseChangeFreq_name.
Qed.

(** X8.  A route that declares no entry function never gets the
    "Invalid sitemap entries" warning: the only warning its callback can
    print is the resolver's one for a missing manifest entry, and the
    entries it gives, if any, are one entry holding only a route without
    [:]. *)
Theorem undeclared_route_is_never_invalid :
  forall (fuel : nat) (ctx : RemixContext) (id : string) (m : RouteModule),
    declaresEntryFunction (handle m) = false ->
    (forall w, In w (snd (collectRoute fuel ctx id m)) ->
               w = WarnNoManifestEntry id)
    /\ (forall es, fst (collectRoute fuel ctx id m) = Normal (Some es) ->
                   exists r, es = [mkSitemapEntry r KeyAbsent KeyAbsent KeyAbsent]
                             /\ includes ":" r = false).
Proof.
  intros fuel ctx id m Hf.
  pose proof (SchemaMore.defaultGetSitemapHandle_log fuel ctx id) as Hlog.
  destruct (SchemaMore.collectRoute_default fuel ctx id m Hf)
    as [H|[(log & Hd & H)|[(log & Hd & H)|(v & log & Hd & H)]]];
    rewrite H; cbn [fst snd]; try rewrite Hd in Hlog; cbn [snd] in Hlog.
  - split; [intros w []|discriminate].
  - split; [exact Hlog|discriminate].
  - split; [exact Hlog|discriminate].
  - destruct v; try (split; [exact Hlog|discriminate]);
      unfold defaultGetSitemapHandle in Hd;
      destruct (assoc id (manifestRoutes ctx)) as [e|]; try discriminate;
      destruct (ownPath e) as [own|]; try discriminate;
      destruct (walkParents fuel ctx (parentId e)
                  (lookupParent ctx (parentId e)) own) as [[p|]| |];
      try discriminate;
      destruct (includes ":" p) eqn:C; try discriminate;
      destruct (id =? "root")%string; try discriminate.
    injection Hd as <- <-. cbn. split; [intros w []|].
    intros es Hes. injection Hes as <-.
    exists (removeTrailingSlash p). split; [reflexivity|].
    now rewrite StringFacts.includes_colon_removeTrailingSlash.
Qed.

Lemma undeclared_route_is_never_invalid_witness :
  exists r,
    [mkSitemapEntry "/blog/posts" KeyAbsent KeyAbsent KeyAbsent]
    = [mkSitemapEntry r KeyAbsent KeyAbsent KeyAbsent]
    /\ includes ":" r = false.
Proof.
  exact (proj2 (@undeclared_route_is_never_invalid 3 Examples.blogCtx
                  "routes/blog.posts" Examples.plainModule eq_refl)
           [mkSitemapEntry "/blog/posts" KeyAbsent KeyAbsent KeyAbsent]
           eq_refl).
Defined.

(** X9.  What an entry function may hand back at the edges: null skips
    the route silently, the empty array gives no entry and no warning,
    undefined is reported as invalid, and an exception ends the callback
    abruptly. *)
Theorem entry_function_edge_results :
  forall (fuel : nat) (ctx : RemixContext) (id : string) (m : RouteModule)
         (f : GetSitemapEntriesFunction),
    (id =? "root") = false ->
    handle m = HandleObject (PropFunction f) ->
    (f id = Normal JNull -> collectRoute fuel ctx id m = (Normal None, []))
    /\ (f id = Normal (JArr []) ->
        collectRoute fuel ctx id m = (Normal (Some []), []))
    /\ (f id = Normal JUndefined ->
        collectRoute fuel ctx id m = (Normal None, [WarnInvalidEntries id]))
    /\ (f id = Thrown -> collectRoute fuel ctx id m = (Thrown, [])).
Proof.
  intros fuel ctx id m f Hid Hh. unfold collectRoute. rewrite Hid, Hh.
  cbn [HandleSchema_safeParse negb andb].
  repeat split; intros ->; reflexivity.
Qed.

Lemma entry_function_edge_results_witness :
  collectRoute 1 Examples.blogCtx "routes/empty" MoreExamples.emptyModule
  = (Normal (Some []), []).
Proof.
  exact (proj1 (proj2 (@entry_function_edge_results 1 Examples.blogCtx
                         "routes/empty" MoreExamples.emptyModule
                         (fun _ => Normal (JArr [])) eq_refl eq_refl))
           eq_refl).
Defined.

(** X10.  A route that declares an entry function whose result the
    schema accepts is collected with exactly the entries of that result,
    in their order, and prints nothing, whether or not its module has a
    default export: a resource route that declares a function is
    collected like a page. *)
Theorem declared_entries_are_collected :
  forall (fuel : nat) (ctx : RemixContext) (id : string) (b : bool)
         (f : GetSitemapEntriesFunction) (raw : jsval)
         (es : list SitemapEntry),
    (id =? "root") = false ->
    f id = Normal raw ->
    SitemapEntriesSchema_safeParse (toArray raw) = Some (Some es) ->
    collectRoute fuel ctx id (mkRouteModule b (HandleObject (PropFunction f)))
    = (Normal (Some es), []).
Proof.
  intros fuel ctx id b f raw es Hid Hf Hp.
  now apply (Written.collectRoute_valid fuel ctx id
               (mkRouteModule b (HandleObject (PropFunction f))) Hid eq_refl Hf).
Qed.

Lemma declared_entries_are_collected_witness :
  collectRoute 1 Examples.blogCtx "routes/sitemap-data"
    (mkRouteModule false
       (HandleObject
          (PropFunction
             (fun _ => Normal (JArr [JObj [("route", JStr "/about")];
                                     JObj [("route", JStr "/blog");
                                           ("priority", JNum 8)]])))))
  = (Normal (Some [mkSitemapEntry "/about" KeyAbsent KeyAbsent KeyAbsent;
                   mkSitemapEntry "/blog" KeyAbsent KeyAbsent (KeyValue P0_8)]),
     []).
Proof.
  exact (@declared_entries_are_collected 1 Examples.blogCtx
           "routes/sitemap-data" false
           (fun _ => Normal (JArr [JObj [("route", JStr "/about")];
                                   JObj [("route", JStr "/blog");
                                         ("priority", JNum 8)]]))
           (JArr [JObj [("route", JStr "/about")];
                  JObj [("route", JStr "/blog"); ("priority", JNum 8)]])
           [mkSitemapEntry "/about" KeyAbsent KeyAbsent KeyAbsent;
            mkSitemapEntry "/blog" KeyAbsent KeyAbsent (KeyValue P0_8)]
           eq_refl eq_refl eq_refl).
Defined.

(** X11.  The collection over two lists of modules put end to end
    holds the entries of the first followed by those of the second, when
    both end normally, and its warnings are those of the two
    collections (in no stated order). *)
Theorem collection_of_an_append :
  forall (fuel : nat) (ctx : RemixContext)
         (l1 l2 : list (string * RouteModule)) (es1 es2 : list SitemapEntry),
    fst (collectAll fuel ctx l1) = Normal es1 ->
    fst (collectAll fuel ctx l2) = Normal es2 ->
    fst (collectAll fuel ctx (l1 ++ l2)) = Normal (es1 ++ es2)%list
    /\ (forall w,
           In w (snd (collectAll fuel ctx (l1 ++ l2)))
           <-> In w (snd (collectAll fuel ctx l1))
               \/ In w (snd (collectAll fuel ctx l2))).
Proof.
  intros fuel ctx l1 l2 es1 es2 H1 H2.
  rewrite (SchemaMore.collectAll_app fuel ctx l1 l2 H1 H2). cbn [fst snd].
  split; [reflexivity|]. intros w. apply in_app_iff.
Qed.

Lemma collection_of_an_append_witness :
  fst (collectAll 1 Examples.mixedCtx
         ([("root", Examples.plainModule); ("routes/bad", Examples.badModule)]
            ++ [("routes/about", Examples.aboutModule)]))
  = Normal ([] ++ [MoreExamples.aboutEntry])%list.
Proof.
  exact (proj1 (@collection_of_an_append 1 Examples.mixedCtx
                  [("root", Examples.plainModule);
                   ("routes/bad", Examples.badModule)]
                  [("routes/about", Examples.aboutModule)]
                  [] [MoreExamples.aboutEntry] eq_refl eq_refl)).
Defined.

(** X12.  The generation ends normally exactly when the callback of
    every route does: nothing after the collection (the loop over the
    entries with [isEqual], the serialisation) can make it fail. *)
Theorem generation_fails_only_with_a_route :
  forall (Request : Type) (getDomainUrl : Request -> string)
         (toISOString : Z -> string) (fuel : nat) (request : Request)
         (ctx : RemixContext),
    isNormal (fst (getSitemapXml getDomainUrl toISOString fuel request ctx))
    = forallb
        (fun jm => isNormal (fst (collectRoute fuel ctx (fst jm) (snd jm))))
        (routeModules ctx).
Proof.
  intros Request getDomainUrl toISOString fuel request ctx.
  rewrite <- SchemaMore.collectAll_isNormal. unfold getSitemapXml.
  destruct (collectAll fuel ctx (routeModules ctx)) as [r log1].
  destruct r as [raw| |]; try reflexivity.
  destruct (Dedup.dedup_total raw) as (es & log2 & H & _).
  now rewrite H.
Qed.

(** X13.  After the loop the accepted entries have pairwise distinct
    routes, every route of the input is among them, and the entry
    accepted for a route is the first entry of the input with that
    route. *)
Theorem dedup_keeps_the_first_of_each_route :
  forall (l es : list SitemapEntry) (log : list Warning),
    dedup l = Normal (es, log) ->
    NoDup (map route es)
    /\ (forall x, In x l -> In (route x) (map route es))
    /\ (forall e, In e es ->
                  find (fun x => (route x =? route e)%string) l = Some e).
Proof.
  intros l es log H.
  destruct (DedupMore.dedup_invariant l H) as (H1 & H2 & H3 & _).
  auto.
Qed.

Lemma dedup_keeps_the_first_of_each_route_witness :
  NoDup (map route [MoreExamples.blogEntry; MoreExamples.aboutEntry])
  /\ (forall x,
         In x [MoreExamples.blogEntry; MoreExamples.aboutEntry;
               MoreExamples.blogEntryLater] ->
         In (route x)
           (map route [MoreExamples.blogEntry; MoreExamples.aboutEntry]))
  /\ (forall e,
         In e [MoreExamples.blogEntry; MoreExamples.aboutEntry] ->
         find (fun x => (route x =? route e)%string)
           [MoreExamples.blogEntry; MoreExamples.aboutEntry;
            MoreExamples.blogEntryLater] = Some e).
Proof.
  exact (@dedup_keeps_the_first_of_each_route
           [MoreExamples.blogEntry; MoreExamples.aboutEntry;
            MoreExamples.blogEntryLater]
           [MoreExamples.blogEntry; MoreExamples.aboutEntry]
           [WarnDuplicateRoute "/blog" MoreExamples.blogEntryLater
              MoreExamples.blogEntry]
           eq_refl).
Defined.

(** X14.  Every entry of the input is accepted or dropped, and a warning
    is printed for dropped entries only: accepted entries and warnings
    together are no more than the input.  Each warning names the route
    of a dropped entry of the input and goes with the accepted entry of
    that route, which [isEqual] told apart from it. *)
Theorem dedup_warns_about_dropped_entries_only :
  forall (l es : list SitemapEntry) (log : list Warning),
    dedup l = Normal (es, log) ->
    List.length es + List.length log <= List.length l
    /\ (forall w, In w log ->
          exists entry ex,
            w = WarnDuplicateRoute (route entry) entry ex
            /\ In entry l /\ In ex es /\ route ex = route entry
            /\ isEqual (entryObject ex) (entryObject entry) = Normal false).
Proof.
  intros l es log H.
  destruct (DedupMore.dedup_invariant l H) as (_ & _ & _ & H4 & H5).
  split; [exact H4|].
  intros w Hw. destruct (H5 w Hw) as (entry & ex & -> & Hl & He & Hr & Ha).
  exists entry, ex. repeat split; auto.
  now rewrite Dedup.isEqual_entries, Ha.
Qed.

Lemma dedup_warns_about_dropped_entries_only_witness :
  List.length [MoreExamples.blogEntry; MoreExamples.aboutEntry]
  + List.length [WarnDuplicateRoute "/blog" MoreExamples.blogEntryLater
                   MoreExamples.blogEntry]
  <= List.length [MoreExamples.blogEntry; MoreExamples.aboutEntry;
                  MoreExamples.blogEntryLater].
Proof.
  exact (proj1 (@dedup_warns_about_dropped_entries_only
                  [MoreExamples.blogEntry; MoreExamples.aboutEntry;
                   MoreExamples.blogEntryLater]
                  [MoreExamples.blogEntry; MoreExamples.aboutEntry]
                  [WarnDuplicateRoute "/blog" MoreExamples.blogEntryLater
                     MoreExamples.blogEntry]
                  eq_refl)).
Defined.

(** X15.  Entries whose routes are all different go through the loop
    unchanged: all are accepted, in their order, and nothing is
    printed. *)
Theorem dedup_leaves_distinct_routes_alone :
  forall l : list SitemapEntry,
    distinctRoutes l = true -> dedup l = Normal (l, []).
Proof.
  intros l H. unfold dedup.
  now rewrite (DedupMore.fold_distinct l [] [] H).
Qed.

Lemma dedup_leaves_distinct_routes_alone_witness :
  dedup [MoreExamples.blogEntry; MoreExamples.aboutEntry]
  = Normal ([MoreExamples.blogEntry; MoreExamples.aboutEntry], []).
Proof.
  exact (@dedup_leaves_distinct_routes_alone
           [MoreExamples.blogEntry; MoreExamples.aboutEntry] eq_refl).
Defined.

(** X16.  The loop is idempotent: run again on the entries it accepted,
    it accepts them all and prints nothing. *)
Theorem dedup_is_idempotent :
  forall (l es : list SitemapEntry) (log : list Warning),
    dedup l = Normal (es, log) -> dedup es = Normal (es, []).
Proof.
  intros l es log H.
  destruct (DedupMore.dedup_invariant l H) as (Hnd & _).
  unfold dedup.
  now rewrite (DedupMore.fold_distinct es [] []
                 (DedupMore.NoDup_distinctRoutes es Hnd)).
Qed.

Lemma dedup_is_idempotent_witness :
  dedup [MoreExamples.blogEntry; MoreExamples.aboutEntry]
  = Normal ([MoreExamples.blogEntry; MoreExamples.aboutEntry], []).
Proof.
  exact (@dedup_is_idempotent
           [MoreExamples.blogEntry; MoreExamples.aboutEntry;
            MoreExamples.blogEntryLater]
           [MoreExamples.blogEntry; MoreExamples.aboutEntry]
           [WarnDuplicateRoute "/blog" MoreExamples.blogEntryLater
              MoreExamples.blogEntry]
           eq_refl).
Defined.

(** X17.  When the first entry binds no key to undefined, a true answer
    of [isEqual] means that the two entries have the same route, the
    same changefreq and the same priority, and both hold a lastmod date
    or neither does; the two dates are never looked at. *)
Theorem isEqual_true_means_same_fields :
  forall e1 e2 : SitemapEntry,
    noUndefinedKey e1 = true ->
    isEqual (entryObject e1) (entryObject e2) = Normal true ->
    route e1 = route e2
    /\ changefreq e1 = changefreq e2
    /\ priority e1 = priority e2
    /\ optMap (fun _ => tt) (lastmod e1) = optMap (fun _ => tt) (lastmod e2).
Proof.
  intros e1 e2 Hu H. rewrite Dedup.isEqual_entries in H.
  injection H as H. unfold entriesAgree, keyCount in H.
  destruct e1 as [r1 l1 c1 p1], e2 as [r2 l2 c2 p2].
  cbn [route lastmod changefreq priority] in *.
  destruct l1 as [| |d1], c1 as [| |a1], p1 as [| |q1];
    try discriminate Hu;
    destruct l2 as [| |d2], c2 as [| |a2], p2 as [| |q2];
    cbn [keyPresent fieldAgrees optValue Nat.add Nat.eqb andb optMap] in H |- *;
    try discriminate H;
    IsEqualMore.split_agree H; try discriminate;
    repeat match goal with
           | E : (_ =? _)%string = true |- _ => apply String.eqb_eq in E
           | E : (_ =? _)%Z = true |- _ => apply Z.eqb_eq in E
           | E : changeFreqName _ = changeFreqName _ |- _ =>
               apply Dedup.changeFreqName_inj in E
           | E : priorityTenths _ = priorityTenths _ |- _ =>
               apply Dedup.priorityTenths_inj in E
           end;
    subst; repeat split; reflexivity.
Qed.

Lemma isEqual_true_means_same_fields_witness :
  route MoreExamples.blogEntry = "/blog"
  /\ changefreq MoreExamples.blogEntry = KeyValue weekly
  /\ priority MoreExamples.blogEntry = KeyValue P0_8
  /\ optMap (fun _ => tt) (lastmod MoreExamples.blogEntry)
     = optMap (fun _ => tt) (KeyValue 0%Z).
Proof.
  exact (@isEqual_true_means_same_fields MoreExamples.blogEntry
           (mkSitemapEntry "/blog" (KeyValue 0%Z) (KeyValue weekly)
              (KeyValue P0_8))
           eq_refl eq_refl).
Defined.

(** X18.  [isEqual] throws when a key of the first object leads to two
    values of type object of which one is null: the recursive call asks
    for the keys of null.  This holds whenever the two objects have the
    same number of keys, whatever the other keys are. *)
Theorem isEqual_throws_on_null_value :
  forall (k : string) (v1 v2 : jsval) (rest1 props2 : list (string * jsval)),
    (List.length props2 =? S (List.length rest1))%nat = true ->
    assoc k props2 = Some v2 ->
    typeofObject v1 = true ->
    typeofObject v2 = true ->
    v1 = JNull \/ v2 = JNull ->
    isEqual (JObj ((k, v1) :: rest1)) (JObj props2) = Thrown.
Proof.
  intros k v1 v2 rest1 props2 Hlen Ha H1 H2 Hnull.
  apply Nat.eqb_eq in Hlen.
  cbn [isEqual objectKeys ownProps option_map map List.length].
  rewrite !length_map, Hlen, Nat.eqb_refl. cbn [negb isEqualProps].
  unfold getProp. cbn [ownProps]. rewrite Ha.
  unfold isEqualStep. rewrite H1, H2. cbn [andb].
  now rewrite (IsEqualMore.isEqual_null Hnull).
Qed.

Lemma isEqual_throws_on_null_value_witness :
  isEqual (JObj [("a", JNull)]) (JObj [("a", JNull)]) = Thrown.
Proof.
  exact (@isEqual_throws_on_null_value "a" JNull JNull [] [("a", JNull)]
           eq_refl eq_refl eq_refl eq_refl (or_introl eq_refl)).
Defined.

(** X19.  The order of the keys does not count: two objects holding the
    same properties in any order, with distinct keys and values that
    are undefined, booleans, strings or numbers, are equal for
    [isEqual].  Numbers are whole tenths here, so NaN, which differs
    from itself, is not among the values the statement covers. *)
Theorem isEqual_ignores_key_order :
  forall props1 props2 : list (string * jsval),
    Permutation props1 props2 ->
    distinctKeys props2 = true ->
    forallb (fun kv => negb (typeofObject (snd kv))) props1 = true ->
    isEqual (JObj props1) (JObj props2) = Normal true.
Proof.
  intros props1 props2 Hperm Hd Hprim.
  cbn [isEqual objectKeys ownProps option_map].
  rewrite !length_map, (Permutation_length Hperm), Nat.eqb_refl. cbn [negb].
  apply IsEqualMore.isEqualProps_found; [exact Hd|].
  intros kv Hkv. split.
  - now apply (Permutation_in _ Hperm).
  - rewrite forallb_forall in Hprim. apply negb_true_iff. now apply Hprim.
Qed.

Lemma isEqual_ignores_key_order_witness :
  isEqual (JObj [("priority", JNum 5); ("route", JStr "/a")])
    (JObj [("route", JStr "/a"); ("priority", JNum 5)]) = Normal true.
Proof.
  exact (@isEqual_ignores_key_order
           [("priority", JNum 5); ("route", JStr "/a")]
           [("route", JStr "/a"); ("priority", JNum 5)]
           (perm_swap _ _ []) eq_refl eq_refl).
Defined.

(** X20.  The block written for an entry, character for character:
    [<loc>] holds the origin followed by the route as it is; the
    [<lastmod>] and [<changefreq>] elements are written exactly when
    the entry holds a value for them, the [<priority>] element exactly
    when it holds a priority other than [0.0]; the three lines are
    there, empty, when the element is not. *)
Theorem url_block_layout :
  forall (toISOString : Z -> string) (domainUrl : string) (e : SitemapEntry),
    getEntry toISOString domainUrl e
    = "<url>" ++ nl
      ++ tab ++ "<loc>" ++ domainUrl ++ route e ++ "</loc>" ++ nl
      ++ tab ++ lastmodElement toISOString e ++ nl
      ++ tab ++ changefreqElement e ++ nl
      ++ tab ++ priorityElement e ++ nl
      ++ "</url>".
Proof. intros. apply Serializer.getEntry_block. Qed.

(** X21.  The document is the fixed prologue (XML declaration and
    opening [urlset] tag), the blocks one after the other with nothing
    between them, a line break and the closing tag; with no block it is
    the prologue followed by the closing tag. *)
Theorem document_is_prologue_blocks_and_closing_tag :
  forall (b : string) (blocks more : list string),
    document blocks = prologue ++ join_empty blocks ++ nl ++ "</urlset>"
    /\ join_empty [] = ""
    /\ join_empty (b :: blocks) = b ++ join_empty blocks
    /\ join_empty (blocks ++ more) = join_empty blocks ++ join_empty more.
Proof.
  intros b blocks more. split; [apply SerializerMore.document_layout|].
  split; [reflexivity|].
  split; [apply SerializerMore.join_empty_cons
         | apply SerializerMore.join_empty_app].
Qed.

(** X22.  A context with no module, or with no module other than
    [root], gives the document without any block and prints nothing,
    whatever the manifest holds. *)
Theorem only_root_gives_the_empty_sitemap :
  forall (Request : Type) (getDomainUrl : Request -> string)
         (toISOString : Z -> string) (fuel : nat) (request : Request)
         (ctx : RemixContext),
    forallb (fun jm => (fst jm =? "root")%string) (routeModules ctx) = true ->
    getSitemapXml getDomainUrl toISOString fuel request ctx
    = (Normal (prologue ++ nl ++ "</urlset>"), []).
Proof.
  intros Request getDomainUrl toISOString fuel request ctx H.
  unfold getSitemapXml.
  rewrite Collector.collectAll_without_root,
    (SerializerMore.filter_only_root _ H).
  cbn [collectAll dedup fold_left map app].
  now rewrite SerializerMore.document_layout.
Qed.

Lemma only_root_gives_the_empty_sitemap_witness :
  getSitemapXml (fun _ : unit => "https://example.com")
    (fun _ => "2024-01-01T00:00:00.000Z") 0 tt
    (mkRemixContext Examples.blogManifest [("root", Examples.plainModule)])
  = (Normal (prologue ++ nl ++ "</urlset>"), []).
Proof.
  exact (@only_root_gives_the_empty_sitemap unit
           (fun _ : unit => "https://example.com")
           (fun _ => "2024-01-01T00:00:00.000Z") 0 tt
           (mkRemixContext Examples.blogManifest [("root", Examples.plainModule)])
           eq_refl).
Defined.

(** X23.  An index route resolves to the route of its parent: when the
    parent has a non-empty path whose segment does not end in a slash
    and is resolved to an entry, the index route below it is resolved to
    an entry with the same route (one more turn of the loop). *)
Theorem index_route_resolves_to_its_parent :
  forall (fuel : nat) (ctx : RemixContext) (pid cid : string)
         (p c : ManifestRoute) (m : RouteModule) (own : string)
         (ancs : list (string * ManifestRoute)),
    assoc pid (manifestRoutes ctx) = Some p ->
    assoc cid (manifestRoutes ctx) = Some c ->
    parentId c = Some pid ->
    truthy pid = true ->
    ownPath c = Some "" ->
    ownPath p = Some own ->
    truthy own = true ->
    endsWith "/" own = false ->
    (pid =? "root") = false ->
    (cid =? "root") = false ->
    assoc pid (routeModules ctx) = Some m ->
    optedOut (handle m) = false ->
    ancestorsOf fuel ctx (parentId p) = Some ancs ->
    forallb (modulePresent ctx) ancs = true ->
    existsb (ancestorOptedOut ctx) ancs = false ->
    includes ":" (joinedPath ancs own) = false ->
    defaultGetSitemapHandle fuel ctx pid
    = (Normal (JObj [("route", JStr (joinedPath ancs own))]), [])
    /\ defaultGetSitemapHandle (S fuel) ctx cid
       = (Normal (JObj [("route", JStr (joinedPath ancs own))]), []).
Proof.
  intros fuel ctx pid cid p c m own ancs Hp Hc Hpar Ht Hcown Hpown Htown Hend
         Hpid Hcid Hm Hopt Hanc Hpres Hnone Hcolon.
  assert (Hne : own <> "") by (destruct own; [discriminate | congruence]).
  assert (Hrts : removeTrailingSlash (joinedPath ancs own) = joinedPath ancs own).
  { apply StringFacts.removeTrailingSlash_id. unfold joinedPath, segments.
    now rewrite StringFacts.endsWith_slash_concat_last. }
  split.
  - rewrite (IndexMore.static_result fuel ctx pid Hp Hpown Hpid Hanc Hpres
               Hnone Hcolon).
    now rewrite Hrts.
  - assert (Hanc' : ancestorsOf (S fuel) ctx (parentId c)
                    = Some ((pid, p) :: ancs)).
    { rewrite Hpar. cbn [ancestorsOf]. unfold lookupParent.
      now rewrite Ht, Hp, Hanc. }
    assert (Hj : joinedPath ((pid, p) :: ancs) "" = joinedPath ancs own ++ "/").
    { rewrite Resolver.joinedPath_cons,
        (IndexMore.parentPathOf_ownPath p Hpown Htown).
      cbn [append]. apply IndexMore.joinedPath_slash. }
    rewrite (@IndexMore.static_result (S fuel) ctx cid c "" ((pid, p) :: ancs)
               Hc Hcown Hcid Hanc').
    + now rewrite Hj, StringFacts.removeTrailingSlash_app_slash.
    + cbn [forallb]. unfold modulePresent at 1. cbn [fst]. now rewrite Hm, Hpres.
    + cbn [existsb]. unfold ancestorOptedOut at 1. cbn [fst].
      now rewrite Hm, Hopt, Hnone.
    + rewrite Hj, StringFacts.includes_char_app, Hcolon. reflexivity.
Qed.

Lemma index_route_resolves_to_its_parent_witness :
  defaultGetSitemapHandle 1 IndexExamples.blogIndexCtx "routes/blog"
  = (Normal (JObj [("route", JStr "/blog")]), [])
  /\ defaultGetSitemapHandle 2 IndexExamples.blogIndexCtx "routes/blog._index"
     = (Normal (JObj [("route", JStr "/blog")]), []).
Proof.
  exact (@index_route_resolves_to_its_parent 1 IndexExamples.blogIndexCtx
           "routes/blog" "routes/blog._index" Examples.blogRoute
           IndexExamples.blogIndexRoute Examples.plainModule "blog"
           [("root", Examples.rootRoute)]
           eq_refl eq_refl eq_refl eq_refl eq_refl eq_refl eq_refl eq_refl
           eq_refl eq_refl eq_refl eq_refl eq_refl eq_refl eq_refl eq_refl).
Defined.

(** X24.  Handing back one value or an array holding just that value is
    the same to the collector, for every value that is neither null nor
    an array itself. *)
Theorem single_value_is_an_array_of_one :
  forall (fuel : nat) (ctx : RemixContext) (id : string) (m1 m2 : RouteModule)
         (f g : GetSitemapEntriesFunction) (v : jsval),
    handle m1 = HandleObject (PropFunction f) ->
    handle m2 = HandleObject (PropFunction g) ->
    f id = Normal v ->
    g id = Normal (JArr [v]) ->
    strictEq v JNull = false ->
    toArray v = JArr [v] ->
    collectRoute fuel ctx id m1 = collectRoute fuel ctx id m2.
Proof.
  intros fuel ctx id m1 m2 f g v H1 H2 Hf Hg Hn Ha. unfold collectRoute.
  destruct (id =? "root")%string; [reflexivity|].
  rewrite H1, H2. cbn [HandleSchema_safeParse negb andb]. rewrite Hf, Hg.
  cbn [toArray]. rewrite <- Ha.
  destruct v; try discriminate Hn; reflexivity.
Qed.

Lemma single_value_is_an_array_of_one_witness :
  collectRoute 1 Examples.mixedCtx "routes/about" Examples.aboutModule
  = collectRoute 1 Examples.mixedCtx "routes/about"
      (mkRouteModule true
         (Examples.returning (JArr [JObj [("route", JStr "/about")]]))).
Proof.
  exact (@single_value_is_an_array_of_one 1 Examples.mixedCtx "routes/about"
           Examples.aboutModule
           (mkRouteModule true
              (Examples.returning (JArr [JObj [("route", JStr "/about")]])))
           (fun _ => Normal (JObj [("route", JStr "/about")]))
           (fun _ => Normal (JArr [JObj [("route", JStr "/about")]]))
           (JObj [("route", JStr "/about")])
           eq_refl eq_refl eq_refl eq_refl eq_refl eq_refl).
Defined.

(** X25.  The entries of a route are validated all or nothing: the array
    fails exactly when one of its elements fails the entry schema, and
    when it passes, each element gives its entry, in the same order. *)
Theorem entries_are_validated_all_or_nothing :
  forall elems : list jsval,
    (SitemapEntriesSchema_safeParse (JArr elems) = None <->
     exists v, In v elems /\ SitemapEntrySchema_safeParse v = None)
    /\ (forall es,
           SitemapEntriesSchema_safeParse (JArr elems) = Some (Some es) ->
           map SitemapEntrySchema_safeParse elems = map Some es).
Proof.
  intros elems. cbn [SitemapEntriesSchema_safeParse]. split.
  - rewrite <- ValidationMore.parseAll_none.
    destruct (parseAll elems); cbn; split; congruence.
  - intros es H. apply ValidationMore.parseAll_some.
    destruct (parseAll elems); cbn in H; congruence.
Qed.
